(** * Data integrity validation of the TV show intervals project

    A shallow embedding of [src/data_integrity.py]: the class
    [DataIntegrityValidator] and the function [format_validation_report].

    The validator reads two PostgreSQL tables through a cursor.  Every SQL
    query is embedded as the list of rows it returns on a database snapshot
    [db]: a join is a nested [flat_map], a [WHERE] clause a [filter], a
    [LEFT JOIN ... WHERE x IS NULL] a filter on the absence of a match.
    The row order of a query without [ORDER BY] is not fixed by SQL; the
    embedding returns rows in table order and the theorems only speak of
    membership and counts.

    A time-of-day value ([TIME] in PostgreSQL) is the number of seconds
    since midnight, from 0 (00:00:00) to 86400 (24:00:00).

    Python exceptions raised by [cursor.execute] are the [inr] case of the
    error type [M]. *)

From Stdlib Require Import String Ascii List Bool ZArith Lia Arith.
Import ListNotations.
Open Scope string_scope.
Open Scope list_scope.

(* ------------------------------------------------------------------ *)
(** ** Rows of the two tables *)

(** A row of [programs]: [id] is the primary key, the times are [TIME]. *)
Record program := mk_program {
  id : Z;
  program_name : string;
  start_time : Z;
  end_time : Z
}.

(** A row of [program_intervals]. *)
Record program_interval := mk_interval {
  pi_program_name : string;
  interval_count : Z
}.

(** A database snapshot, as seen by the read-only queries of one run. *)
Record db := mk_db {
  programs : list program;
  program_intervals : list program_interval
}.

(** [TIME '12:00'] and [TIME '24:00:00'] in seconds. *)
Definition time_noon : Z := 43200.
Definition time_24h : Z := 86400.

(** A time-of-day value in the range PostgreSQL accepts for [TIME]. *)
Definition valid_time (t : Z) : Prop := (0 <= t <= time_24h)%Z.

(* ------------------------------------------------------------------ *)
(** ** Exceptions *)

(** The error raised by psycopg2 when the server rejects a query. *)
Inductive exn := ProgrammingError (msg : string).

Definition M (A : Type) : Type := (A + exn)%type.

Definition ret {A} (x : A) : M A := inl x.

Definition bind {A B} (m : M A) (k : A -> M B) : M B :=
  match m with
  | inl x => k x
  | inr e => inr e
  end.

Notation "x <- m ;; k" := (bind m (fun x => k))
  (at level 61, m at next level, right associativity).

(* ------------------------------------------------------------------ *)
(** ** Python's [str] of a non-negative [int] *)

Definition digit_char (d : nat) : ascii := ascii_of_nat (48 + d).

(** Decimal digits of [n], most significant first; [fuel] bounds the
    number of divisions and is always large enough when [fuel > n]. *)
Fixpoint digits_aux (fuel n : nat) (acc : string) : string :=
  match fuel with
  | O => acc
  | S fuel' =>
      let acc' := String (digit_char (n mod 10)) acc in
      if Nat.ltb n 10 then acc' else digits_aux fuel' (Nat.div n 10) acc'
  end.

Definition str_nat (n : nat) : string := digits_aux (S n) n "".

(** [f"Found {len(xs)} ..."] *)
Definition found (n : nat) (rest : string) : string :=
  ("Found " ++ str_nat n ++ rest)%string.

(* ------------------------------------------------------------------ *)
(** ** Check 1: [validate_referential_integrity] *)

Record referential_result := mk_referential {
  ri_is_valid : bool;
  ri_errors : list string;
  orphaned_intervals : list string;
  missing_intervals : list string
}.

(** [SELECT pi.program_name FROM program_intervals pi LEFT JOIN programs p
     ON pi.program_name = p.program_name WHERE p.program_name IS NULL] *)
Definition orphaned_query (d : db) : list string :=
  map pi_program_name
    (filter (fun i => negb (existsb (fun p => String.eqb (pi_program_name i) (program_name p))
                                    (programs d)))
            (program_intervals d)).

(** [SELECT p.program_name FROM programs p LEFT JOIN program_intervals pi
     ON p.program_name = pi.program_name WHERE pi.program_name IS NULL] *)
Definition missing_query (d : db) : list string :=
  map program_name
    (filter (fun p => negb (existsb (fun i => String.eqb (program_name p) (pi_program_name i))
                                    (program_intervals d)))
            (programs d)).

Definition validate_referential_integrity (d : db) : referential_result :=
  let r0 := mk_referential true [] [] [] in
  let orphaned := orphaned_query d in
  let r1 :=
    match orphaned with
    | [] => r0
    | _ => mk_referential false
             (ri_errors r0 ++ [found (length orphaned) " orphaned interval records"])
             orphaned (missing_intervals r0)
    end in
  let missing := missing_query d in
  match missing with
  | [] => r1
  | _ => mk_referential false
           (ri_errors r1 ++ [found (length missing) " programs without interval records"])
           (orphaned_intervals r1) missing
  end.

(* ------------------------------------------------------------------ *)
(** ** Check 2: [validate_time_constraints] *)

(** A row [SELECT program_name, start_time, end_time FROM programs ...]. *)
Record time_row := mk_time_row {
  tr_name : string;
  tr_start : Z;
  tr_end : Z
}.

Definition time_row_of (p : program) : time_row :=
  mk_time_row (program_name p) (start_time p) (end_time p).

(** A row of the overlap query:
    [p1.program_name as program1, p2.program_name as program2,
     p1.start_time as start1, p1.end_time as end1,
     p2.start_time as start2, p2.end_time as end2]. *)
Record overlap_row := mk_overlap_row {
  program1 : string;
  program2 : string;
  start1 : Z;
  end1 : Z;
  start2 : Z;
  end2 : Z
}.

Definition overlap_row_of (p1 p2 : program) : overlap_row :=
  mk_overlap_row (program_name p1) (program_name p2)
    (start_time p1) (end_time p1) (start_time p2) (end_time p2).

Record time_result := mk_time_result {
  tc_is_valid : bool;
  tc_errors : list string;
  invalid_times : list time_row;
  overlapping_programs : list overlap_row;
  negative_durations : list time_row
}.

(** [WHERE start_time IS NULL OR end_time IS NULL OR start_time::text = ''
     OR end_time::text = '']: the columns of a [programs] row are non-NULL
    times here and the text of a [TIME] is never empty, so no row passes. *)
Definition invalid_time_value (p : program) : bool := false.

Definition invalid_times_query (d : db) : list time_row :=
  map time_row_of (filter invalid_time_value (programs d)).

(** [WHERE p1.start_time < p2.end_time AND p1.end_time > p2.start_time
     AND NOT (p1.start_time > p1.end_time OR p2.start_time > p2.end_time)] *)
Definition overlap_cond (p1 p2 : program) : bool :=
  (start_time p1 <? end_time p2)%Z && (start_time p2 <? end_time p1)%Z
  && negb ((end_time p1 <? start_time p1)%Z || (end_time p2 <? start_time p2)%Z).

(** [FROM programs p1 JOIN programs p2 ON p1.id < p2.id WHERE ...] *)
Definition overlap_query (d : db) : list overlap_row :=
  flat_map (fun p1 =>
    map (overlap_row_of p1)
      (filter (fun p2 => (id p1 <? id p2)%Z && overlap_cond p1 p2) (programs d)))
    (programs d).

(** [WHERE start_time > end_time
       AND NOT (start_time > '12:00' AND end_time < '12:00')] *)
Definition negative_cond (p : program) : bool :=
  (end_time p <? start_time p)%Z
  && negb ((time_noon <? start_time p)%Z && (end_time p <? time_noon)%Z).

Definition negative_query (d : db) : list time_row :=
  map time_row_of (filter negative_cond (programs d)).

Definition validate_time_constraints (d : db) : time_result :=
  let r0 := mk_time_result true [] [] [] [] in
  let inv := invalid_times_query d in
  let r1 :=
    match inv with
    | [] => r0
    | _ => mk_time_result false
             (tc_errors r0 ++ [found (length inv) " programs with invalid time values"])
             inv (overlapping_programs r0) (negative_durations r0)
    end in
  let ov := overlap_query d in
  let r2 :=
    match ov with
    | [] => r1
    | _ => mk_time_result false
             (tc_errors r1 ++ [found (length ov) " overlapping program pairs"])
             (invalid_times r1) ov (negative_durations r1)
    end in
  let neg := negative_query d in
  match neg with
  | [] => r2
  | _ => mk_time_result false
           (tc_errors r2 ++ [found (length neg) " programs with negative durations"])
           (invalid_times r2) (overlapping_programs r2) neg
  end.

(* ------------------------------------------------------------------ *)
(** ** Check 3: [validate_interval_calculations] *)

(** A row [p.program_name, p.start_time, p.end_time,
    pi.interval_count as stored_count,
    count_15min_intervals(p.start_time, p.end_time) as calculated_count]. *)
Record calc_row := mk_calc_row {
  cr_name : string;
  cr_start : Z;
  cr_end : Z;
  stored_count : Z;
  calculated_count : Z
}.

Record calc_result := mk_calc_result {
  ic_is_valid : bool;
  ic_errors : list string;
  incorrect_calculations : list calc_row
}.

Section Intervals.

(** The database function [count_15min_intervals(time, time)]: it is
    defined in the database schema, outside this repository, and the
    validator only calls it; every theorem holds for any such function. *)
Variable count_15min_intervals : Z -> Z -> Z.

Definition calc_row_of (p : program) (i : program_interval) : calc_row :=
  mk_calc_row (program_name p) (start_time p) (end_time p)
    (interval_count i) (count_15min_intervals (start_time p) (end_time p)).

(** [FROM programs p JOIN program_intervals pi
     ON p.program_name = pi.program_name
     WHERE pi.interval_count != count_15min_intervals(p.start_time, p.end_time)] *)
Definition incorrect_query (d : db) : list calc_row :=
  flat_map (fun p =>
    map (calc_row_of p)
      (filter (fun i => String.eqb (program_name p) (pi_program_name i)
                        && negb (interval_count i =? count_15min_intervals (start_time p) (end_time p))%Z)
              (program_intervals d)))
    (programs d).

Definition validate_interval_calculations (d : db) : calc_result :=
  let r0 := mk_calc_result true [] [] in
  let incorrect := incorrect_query d in
  match incorrect with
  | [] => r0
  | _ => mk_calc_result false
           (ic_errors r0 ++ [found (length incorrect) " programs with incorrect interval calculations"])
           incorrect
  end.

End Intervals.

(* ------------------------------------------------------------------ *)
(** ** String helpers: PostgreSQL [TRIM], [LENGTH], [ILIKE], Python [upper] *)

Definition space : ascii := " "%char.

(** [TRIM(s) = '']: [TRIM] removes leading and trailing spaces, so the
    trimmed string is empty exactly when every character is a space. *)
Fixpoint trim_is_empty (s : string) : bool :=
  match s with
  | EmptyString => true
  | String c s' => Ascii.eqb c space && trim_is_empty s'
  end.

Definition lower_ascii (c : ascii) : ascii :=
  let n := nat_of_ascii c in
  if Nat.leb 65 n && Nat.leb n 90 then ascii_of_nat (n + 32) else c.

Definition upper_ascii (c : ascii) : ascii :=
  let n := nat_of_ascii c in
  if Nat.leb 97 n && Nat.leb n 122 then ascii_of_nat (n - 32) else c.

Fixpoint map_string (f : ascii -> ascii) (s : string) : string :=
  match s with
  | EmptyString => EmptyString
  | String c s' => String (f c) (map_string f s')
  end.

Definition lower (s : string) : string := map_string lower_ascii s.
Definition upper (s : string) : string := map_string upper_ascii s.

(** Python's [s.replace('_', ' ')]. *)
Definition replace_underscore (s : string) : string :=
  map_string (fun c => if Ascii.eqb c "_"%char then space else c) s.

(** [t] occurs in [s] as a contiguous substring (Python's [t in s]). *)
Fixpoint contains (t s : string) : bool :=
  String.prefix t s
  || match s with
     | EmptyString => false
     | String _ s' => contains t s'
     end.

(** [s ILIKE '%pat%'] for a pattern [pat] without wildcards or backslash. *)
Definition ilike_infix (pat s : string) : bool := contains (lower pat) (lower s).

(* ------------------------------------------------------------------ *)
(** ** Check 4: [validate_data_quality] *)

(** A row [program_name, COUNT( * ) as count]. *)
Record dup_row := mk_dup_row { dr_name : string; dr_count : nat }.

(** A row [program_name, LENGTH(program_name) as name_length]. *)
Record long_name_row := mk_long_name_row { ln_name : string; name_length : nat }.

Record quality_result := mk_quality_result {
  dq_is_valid : bool;
  dq_errors : list string;
  duplicate_names : list dup_row;
  empty_names : list time_row;
  long_names : list long_name_row;
  zero_duration : list time_row
}.

Definition name_count (d : db) (n : string) : nat :=
  count_occ string_dec (map program_name (programs d)) n.

(** [SELECT program_name, COUNT( * ) FROM programs GROUP BY program_name
     HAVING COUNT( * ) > 1]: one row per distinct name. *)
Definition duplicates_query (d : db) : list dup_row :=
  filter (fun r => Nat.ltb 1 (dr_count r))
    (map (fun n => mk_dup_row n (name_count d n)) (nodup string_dec (map program_name (programs d)))).

(** [WHERE program_name IS NULL OR TRIM(program_name) = ''
     OR LENGTH(program_name) = 0] *)
Definition empty_names_query (d : db) : list time_row :=
  map time_row_of
    (filter (fun p => trim_is_empty (program_name p)
                      || Nat.eqb (String.length (program_name p)) 0)
            (programs d)).

(** [WHERE LENGTH(program_name) > 255] *)
Definition long_names_query (d : db) : list long_name_row :=
  map (fun p => mk_long_name_row (program_name p) (String.length (program_name p)))
    (filter (fun p => Nat.ltb 255 (String.length (program_name p))) (programs d)).

(** [WHERE start_time = end_time] *)
Definition zero_duration_query (d : db) : list time_row :=
  map time_row_of (filter (fun p => (start_time p =? end_time p)%Z) (programs d)).

Definition validate_data_quality (d : db) : quality_result :=
  let r0 := mk_quality_result true [] [] [] [] [] in
  let dups := duplicates_query d in
  let r1 :=
    match dups with
    | [] => r0
    | _ => mk_quality_result false
             (dq_errors r0 ++ [found (length dups) " duplicate program names"])
             dups (empty_names r0) (long_names r0) (zero_duration r0)
    end in
  let empt := empty_names_query d in
  let r2 :=
    match empt with
    | [] => r1
    | _ => mk_quality_result false
             (dq_errors r1 ++ [found (length empt) " programs with empty names"])
             (duplicate_names r1) empt (long_names r1) (zero_duration r1)
    end in
  let longn := long_names_query d in
  let r3 :=
    match longn with
    | [] => r2
    | _ => mk_quality_result false
             (dq_errors r2 ++ [found (length longn) " programs with names exceeding 255 characters"])
             (duplicate_names r2) (empty_names r2) longn (zero_duration r2)
    end in
  let zero := zero_duration_query d in
  match zero with
  | [] => r3
  | _ => (* This might be valid business case, so just report it *)
         mk_quality_result (dq_is_valid r3)
           (dq_errors r3 ++ [found (length zero) " zero-duration programs (may be valid)"])
           (duplicate_names r3) (empty_names r3) (long_names r3) zero
  end.

(* ------------------------------------------------------------------ *)
(** ** Check 5: [validate_business_rules] *)

(** [CASE WHEN end_time < start_time
          THEN EXTRACT(EPOCH FROM (TIME '24:00:00' - start_time)) / 60
               + EXTRACT(EPOCH FROM end_time) / 60
          ELSE EXTRACT(EPOCH FROM (end_time - start_time)) / 60 END],
    kept in seconds: [duration_minutes > 1440] is [duration > 86400]. *)
Definition duration_seconds (p : program) : Z :=
  if (end_time p <? start_time p)%Z
  then (time_24h - start_time p) + end_time p
  else end_time p - start_time p.

(** A row [program_name, start_time, end_time, duration_minutes]. *)
Record long_row := mk_long_row {
  lr_name : string;
  lr_start : Z;
  lr_end : Z;
  lr_duration_seconds : Z
}.

(** The entries of [suspicious_patterns]: rows of the long-program query
    and names of the suspicious-name query share one Python list. *)
Inductive suspicious_entry :=
  | LongProgram (r : long_row)
  | SuspiciousName (n : string).

Record business_result := mk_business_result {
  br_is_valid : bool;
  br_errors : list string;
  br_warnings : list string;
  suspicious_patterns : list suspicious_entry
}.

(** The rows the long-program query selects when its condition is read as
    a row filter, as in [... FROM programs WHERE <duration> > 1440]. *)
Definition long_programs_rows (d : db) : list long_row :=
  map (fun p => mk_long_row (program_name p) (start_time p) (end_time p) (duration_seconds p))
    (filter (fun p => (time_24h <? duration_seconds p)%Z) (programs d)).

(** [SELECT program_name, start_time, end_time, CASE ... END as duration_minutes
     FROM programs HAVING duration_minutes > 1440] as PostgreSQL runs it.
    A [HAVING] clause without [GROUP BY] makes the query one aggregate group,
    in which the ungrouped columns of the select list are not allowed, and
    PostgreSQL resolves the names of a [HAVING] clause against the input
    columns only, never against output aliases such as [duration_minutes].
    The server therefore rejects the statement whatever the tables hold, and
    psycopg2 raises. *)
Definition long_programs_query (d : db) : M (list long_row) :=
  inr (ProgrammingError "column duration_minutes does not exist").

Definition suspicious_patterns_ilike : list string :=
  ["drop"; "delete"; "insert"; "update"; "select"; "--"; ";"; "script"].

(** [WHERE program_name ILIKE ANY(ARRAY['%drop%', '%delete%', '%insert%',
     '%update%', '%select%', '%--%', '%;%', '%script%'])] *)
Definition suspicious_name (n : string) : bool :=
  existsb (fun pat => ilike_infix pat n) suspicious_patterns_ilike.

Definition suspicious_query (d : db) : list string :=
  map program_name (filter (fun p => suspicious_name (program_name p)) (programs d)).

(** [EXTRACT(MINUTE FROM t)] *)
Definition minute_of (t : Z) : Z := ((t / 60) mod 60)%Z.

Definition standard_minute (t : Z) : bool :=
  existsb (Z.eqb (minute_of t)) [0; 15; 30; 45]%Z.

(** [WHERE EXTRACT(MINUTE FROM start_time) NOT IN (0, 15, 30, 45)
        OR EXTRACT(MINUTE FROM end_time) NOT IN (0, 15, 30, 45)] *)
Definition non_standard_query (d : db) : list time_row :=
  map time_row_of
    (filter (fun p => negb (standard_minute (start_time p)) || negb (standard_minute (end_time p)))
            (programs d)).

(** The body of [validate_business_rules] after its first query, given the
    rows that query returned. *)
Definition business_rules_from (long_programs : list long_row) (d : db) : business_result :=
  let r0 := mk_business_result true [] [] [] in
  let r1 :=
    match long_programs with
    | [] => r0
    | _ => mk_business_result false
             (br_errors r0 ++ [found (length long_programs) " programs longer than 24 hours"])
             (br_warnings r0)
             (suspicious_patterns r0 ++ map LongProgram long_programs)
    end in
  let suspicious_names := suspicious_query d in
  let r2 :=
    match suspicious_names with
    | [] => r1
    | _ => mk_business_result (br_is_valid r1) (br_errors r1)
             (br_warnings r1 ++ [found (length suspicious_names) " programs with suspicious names"])
             (suspicious_patterns r1 ++ map SuspiciousName suspicious_names)
    end in
  let non_standard_times := non_standard_query d in
  match non_standard_times with
  | [] => r2
  | _ => mk_business_result (br_is_valid r2) (br_errors r2)
           (br_warnings r2 ++ [found (length non_standard_times) " programs with non-standard time slots"])
           (suspicious_patterns r2)
  end.

Definition validate_business_rules (d : db) : M business_result :=
  long_programs <- long_programs_query d ;;
  ret (business_rules_from long_programs d).

(* ------------------------------------------------------------------ *)
(** ** [run_comprehensive_validation] *)

Record summary := mk_summary {
  total_errors : nat;
  total_warnings : nat;
  checks_performed : nat
}.

Record all_results := mk_all_results {
  overall_valid : bool;
  summary_of : summary;
  referential_integrity : referential_result;
  time_constraints : time_result;
  interval_calculations : calc_result;
  data_quality : quality_result;
  business_rules : business_result
}.

(** What the summary loop and the report read from a value of the
    [all_results] dict: [dict.get('is_valid')], [dict.get('errors')] and
    [dict.get('warnings')] of a dict, [None] for a missing key. *)
Record dict_view := mk_dict_view {
  dv_is_valid : option bool;
  dv_errors : option (list string);
  dv_warnings : option (list string)
}.

Inductive value :=
  | VBool (b : bool)
  | VDict (v : dict_view).

Definition summary_view (s : summary) : dict_view := mk_dict_view None None None.

Definition ri_view (r : referential_result) : dict_view :=
  mk_dict_view (Some (ri_is_valid r)) (Some (ri_errors r)) None.
Definition tc_view (r : time_result) : dict_view :=
  mk_dict_view (Some (tc_is_valid r)) (Some (tc_errors r)) None.
Definition ic_view (r : calc_result) : dict_view :=
  mk_dict_view (Some (ic_is_valid r)) (Some (ic_errors r)) None.
Definition dq_view (r : quality_result) : dict_view :=
  mk_dict_view (Some (dq_is_valid r)) (Some (dq_errors r)) None.
Definition br_view (r : business_result) : dict_view :=
  mk_dict_view (Some (br_is_valid r)) (Some (br_errors r)) (Some (br_warnings r)).

(** [all_results.items()] in insertion order. *)
Definition items (r : all_results) : list (string * value) :=
  [("overall_valid", VBool (overall_valid r));
   ("summary", VDict (summary_view (summary_of r)));
   ("referential_integrity", VDict (ri_view (referential_integrity r)));
   ("time_constraints", VDict (tc_view (time_constraints r)));
   ("interval_calculations", VDict (ic_view (interval_calculations r)));
   ("data_quality", VDict (dq_view (data_quality r)));
   ("business_rules", VDict (br_view (business_rules r)))].

Definition get_list (o : option (list string)) : list string :=
  match o with Some l => l | None => [] end.

(** [check_results.get('is_valid', True)] *)
Definition get_is_valid (v : dict_view) : bool :=
  match dv_is_valid v with Some b => b | None => true end.

(** One iteration of the summary loop, on [(overall_valid, summary)]. *)
Definition summary_step (acc : bool * summary) (kv : string * value) : bool * summary :=
  let '(ov, s) := acc in
  match snd kv with
  | VDict (mk_dict_view (Some valid) errs warns) =>
      let s1 := mk_summary (total_errors s) (total_warnings s) (S (checks_performed s)) in
      let '(ov2, s2) :=
        if valid then (ov, s1)
        else (false, mk_summary (total_errors s1 + length (get_list errs))
                                (total_warnings s1) (checks_performed s1)) in
      (ov2, mk_summary (total_errors s2) (total_warnings s2 + length (get_list warns))
                       (checks_performed s2))
  | _ => (ov, s)
  end.

Definition calculate_summary (r : all_results) : all_results :=
  let '(ov, s) := fold_left summary_step (items r) (overall_valid r, summary_of r) in
  mk_all_results ov s (referential_integrity r) (time_constraints r)
    (interval_calculations r) (data_quality r) (business_rules r).

Definition run_comprehensive_validation (cf : Z -> Z -> Z) (d : db) : M all_results :=
  let ri := validate_referential_integrity d in
  let tc := validate_time_constraints d in
  let ic := validate_interval_calculations cf d in
  let dq := validate_data_quality d in
  br <- validate_business_rules d ;;
  ret (calculate_summary (mk_all_results true (mk_summary 0 0 0) ri tc ic dq br)).

(* ------------------------------------------------------------------ *)
(** ** [format_validation_report] *)

(** Python's [sep.join(xs)]. *)
Fixpoint join (sep : string) (xs : list string) : string :=
  match xs with
  | [] => ""
  | [x] => x
  | x :: xs' => (x ++ sep ++ join sep xs')%string
  end.

Definition newline : string := String (ascii_of_nat 10) EmptyString.

(** ["=" * 60] *)
Definition rule60 : string := String.concat "" (repeat "=" 60).

Definition pass_fail (b : bool) : string := if b then "PASS" else "FAIL".

(** The lines of one check's section. *)
Definition section_lines (check_name : string) (v : dict_view) : list string :=
  [(upper (replace_underscore check_name) ++ ":")%string;
   ("  Status: " ++ pass_fail (get_is_valid v))%string]
  ++ (match get_list (dv_errors v) with
      | [] => []
      | errors => "  Errors:" :: map (fun e => ("    - " ++ e)%string) errors
      end)
  ++ (match get_list (dv_warnings v) with
      | [] => []
      | warnings => "  Warnings:" :: map (fun w => ("    - " ++ w)%string) warnings
      end)
  ++ [""].

Definition report_checks : list string :=
  ["referential_integrity"; "time_constraints"; "interval_calculations";
   "data_quality"; "business_rules"].

(** [validation_results.get(check_name, {})], [None] when the value is not
    a dict (the [isinstance] test of the loop). *)
Definition check_view (r : all_results) (check_name : string) : option dict_view :=
  match find (fun kv => String.eqb (fst kv) check_name) (items r) with
  | Some (_, VDict v) => Some v
  | Some (_, VBool _) => None
  | None => Some (mk_dict_view None None None)
  end.

Definition report_lines (r : all_results) : list string :=
  let s := summary_of r in
  [rule60; "DATA INTEGRITY VALIDATION REPORT"; rule60;
   ("Overall Status: " ++ pass_fail (overall_valid r))%string;
   ("Checks Performed: " ++ str_nat (checks_performed s))%string;
   ("Total Errors: " ++ str_nat (total_errors s))%string;
   ("Total Warnings: " ++ str_nat (total_warnings s))%string;
   ""]
  ++ flat_map (fun c => match check_view r c with
                        | Some v => section_lines c v
                        | None => []
                        end) report_checks
  ++ [rule60].

Definition format_validation_report (r : all_results) : string :=
  join newline (report_lines r).

(* ------------------------------------------------------------------ *)
(** ** Auxiliary definitions of the properties and their concrete inputs *)

Definition program_names (d : db) : list string := map program_name (programs d).
Definition interval_names (d : db) : list string := map pi_program_name (program_intervals d).

(** The 1:1 correspondence of names: every [Program] name has exactly one
    [ProgramInterval] row of that name, and every [ProgramInterval] name
    exactly one [Program] row. *)
Definition one_to_one (d : db) : Prop :=
  (forall p, In p (programs d) -> count_occ string_dec (interval_names d) (program_name p) = 1%nat)
  /\ (forall i, In i (program_intervals d) -> count_occ string_dec (program_names d) (pi_program_name i) = 1%nat).

Definition is_nil {A} (l : list A) : bool := match l with [] => true | _ => false end.

(** A row of the overlap list names the pair [A], [B] in one order or the other. *)
Definition reported_overlap (r : time_result) (A B : program) : Prop :=
  In (overlap_row_of A B) (overlapping_programs r) \/ In (overlap_row_of B A) (overlapping_programs r).

Definition show_a : program := mk_program 1 "Morning Show" 32400 37800.
Definition show_b : program := mk_program 2 "Late Morning" 36000 39600.
Definition schedule_ab : db := mk_db [show_a; show_b] [].

(** A concrete count function for the witnesses: whole quarter hours of
    the duration, overnight programs wrapping past midnight. *)
Definition quarter_hours (s e : Z) : Z :=
  if (e <? s)%Z then ((time_24h - s + e) / 900)%Z else ((e - s) / 900)%Z.

Definition news_90 : program := mk_program 1 "Evening News" 64800 70200.
Definition news_90_interval : program_interval := mk_interval "Evening News" 4.
Definition schedule_news : db := mk_db [news_90] [news_90_interval].

Definition show_overnight : program := mk_program 3 "Late Movie" 82800 3600.
Definition show_backwards : program := mk_program 4 "Broken Slot" 36000 3600.
Definition schedule_night : db := mk_db [show_overnight; show_backwards] [].

Definition zero_duration_message (d : db) : string :=
  found (length (zero_duration_query d)) " zero-duration programs (may be valid)".

Definition quiet_slot : program := mk_program 5 "Test Card" 36000 36000.
Definition schedule_quiet : db := mk_db [quiet_slot] [mk_interval "Test Card" 0].

Fixpoint char_in (c : ascii) (s : string) : bool :=
  match s with
  | EmptyString => false
  | String c' s' => Ascii.eqb c c' || char_in c s'
  end.

Definition nl : ascii := ascii_of_nat 10.

Definition letter_O : ascii := "O"%char.

(** The messages the five checks emit: [f"Found {n}<suffix>"]. *)
Definition validator_suffixes : list string :=
  [" orphaned interval records"; " programs without interval records";
   " programs with invalid time values"; " overlapping program pairs";
   " programs with negative durations"; " programs with incorrect interval calculations";
   " duplicate program names"; " programs with empty names";
   " programs with names exceeding 255 characters";
   " zero-duration programs (may be valid)"; " programs longer than 24 hours";
   " programs with suspicious names"; " programs with non-standard time slots"].

Definition validator_message (m : string) : Prop :=
  exists n sfx, In sfx validator_suffixes /\ m = found n sfx.

(** Every error and warning string a comprehensive-run result carries. *)
Definition report_messages (r : all_results) : list string :=
  ri_errors (referential_integrity r) ++ tc_errors (time_constraints r)
  ++ ic_errors (interval_calculations r) ++ dq_errors (data_quality r)
  ++ br_errors (business_rules r) ++ br_warnings (business_rules r).

(** The report lines that hold no value of the result. *)
Definition constant_lines : list string :=
  [rule60; "DATA INTEGRITY VALIDATION REPORT"; "REFERENTIAL INTEGRITY:";
   "TIME CONSTRAINTS:"; "INTERVAL CALCULATIONS:"; "DATA QUALITY:"; "BUSINESS RULES:"].

Definition status_line (r : all_results) : string :=
  ("Overall Status: " ++ pass_fail (overall_valid r))%string.

(** The lines of a section of the report: its title, its status, and each
    error and warning as ["    - " ++ message]. *)
Definition section_ok (title : string) (valid : bool) (errs warns : list string)
    (lines : list string) : Prop :=
  exists rest,
    lines = (title ++ ":")%string :: ("  Status: " ++ pass_fail valid)%string :: rest
    /\ (forall e, In e errs -> In ("    - " ++ e)%string rest)
    /\ (forall w, In w warns -> In ("    - " ++ w)%string rest).

(** A character other than a decimal digit. *)
Definition non_digit (c : ascii) : Prop :=
  forall d, d < 10 -> Ascii.eqb c (digit_char d) = false.

Definition overall_pass : string := "Overall Status: PASS".
Definition overall_fail : string := "Overall Status: FAIL".

Definition demo_schedule : db :=
  mk_db [show_a; show_b; news_90; quiet_slot; show_backwards;
         mk_program 6 "'; DROP TABLE programs; --" 3600 4500]
        [news_90_interval; mk_interval "Ghost" 2].

Definition demo_results : all_results :=
  calculate_summary
    (mk_all_results true (mk_summary 0 0 0) (validate_referential_integrity demo_schedule)
       (validate_time_constraints demo_schedule)
       (validate_interval_calculations quarter_hours demo_schedule)
       (validate_data_quality demo_schedule) (business_rules_from [] demo_schedule)).

Definition long_query_error : exn := ProgrammingError "column duration_minutes does not exist".

Definition letter_c : ascii := "c"%char.

Definition injection_show : program := mk_program 6 "'; DROP TABLE programs; --" 3600 4500.
Definition schedule_injection : db := mk_db [injection_show] [mk_interval "'; DROP TABLE programs; --" 1].

(** ** Auxiliary definitions of further properties *)

(** Python's [int(s)] on a string of decimal digits. *)
Fixpoint decimal_value_aux (s : string) (acc : nat) : nat :=
  match s with
  | EmptyString => acc
  | String c s' => decimal_value_aux s' (acc * 10 + (nat_of_ascii c - 48))
  end.

Definition decimal_value (s : string) : nat := decimal_value_aux s 0.

Definition is_digit (c : ascii) : bool :=
  Nat.leb 48 (nat_of_ascii c) && Nat.leb (nat_of_ascii c) 57.

(** [s] is the decimal text of [n]: non-empty, digits only, reading back as [n]. *)
Definition reads_back (s : string) (n : nat) : Prop :=
  s <> EmptyString /\ (forall c, char_in c s = true -> is_digit c = true) /\ decimal_value s = n.

(** The dicts of the five checks, in the order of the report. *)
Definition report_views (r : all_results) : list dict_view :=
  [ri_view (referential_integrity r); tc_view (time_constraints r);
   ic_view (interval_calculations r); dq_view (data_quality r); br_view (business_rules r)].

(** Lines of an ["  Errors:"] or ["  Warnings:"] block of a section. *)
Definition block_length (l : list string) : nat :=
  match l with [] => 0 | _ => S (length l) end.

Definition section_length (v : dict_view) : nat :=
  3 + block_length (get_list (dv_errors v)) + block_length (get_list (dv_warnings v)).

Definition blank_show : program := mk_program 7 "   " 0 900.
Definition schedule_blank : db := mk_db [blank_show] [mk_interval "   " 1].

Definition odd_slot : program := mk_program 8 "Odd Slot" 36600 39600.
Definition schedule_odd : db := mk_db [odd_slot] [mk_interval "Odd Slot" 3].

(* ================================================================== *)
(** * Properties *)

Lemma is_nil_true {A} (l : list A) : is_nil l = true <-> l = [].
Proof. destruct l; simpl; split; congruence. Qed.

(** ** Referential integrity *)

Lemma referential_fields (d : db) :
  orphaned_intervals (validate_referential_integrity d) = orphaned_query d
  /\ missing_intervals (validate_referential_integrity d) = missing_query d
  /\ ri_is_valid (validate_referential_integrity d)
     = is_nil (orphaned_query d) && is_nil (missing_query d).
Proof.
  unfold validate_referential_integrity.
  destruct (orphaned_query d), (missing_query d); simpl; auto.
Qed.

Lemma in_orphaned_query (d : db) (n : string) :
  In n (orphaned_query d) <-> In n (interval_names d) /\ ~ In n (program_names d).
Proof.
  unfold orphaned_query, interval_names, program_names.
  rewrite in_map_iff. split.
  - intros (i & <- & Hi). apply filter_In in Hi as [Hi Hn].
    split; [now apply in_map|].
    intros Hp. apply in_map_iff in Hp as (p & Hpn & Hp).
    apply negb_true_iff in Hn. rewrite <- not_true_iff_false in Hn. apply Hn.
    apply existsb_exists. exists p. split; [assumption|]. apply String.eqb_eq. auto.
  - intros [Hi Hp]. apply in_map_iff in Hi as (i & <- & Hi).
    exists i. split; [reflexivity|]. apply filter_In. split; [assumption|].
    apply negb_true_iff, not_true_iff_false. intros He.
    apply existsb_exists in He as (p & Hp' & He). apply String.eqb_eq in He.
    apply Hp, in_map_iff. exists p. auto.
Qed.

Lemma in_missing_query (d : db) (n : string) :
  In n (missing_query d) <-> In n (program_names d) /\ ~ In n (interval_names d).
Proof.
  unfold missing_query, interval_names, program_names.
  rewrite in_map_iff. split.
  - intros (p & <- & Hp). apply filter_In in Hp as [Hp Hn].
    split; [now apply in_map|].
    intros Hi. apply in_map_iff in Hi as (i & Hin & Hi).
    apply negb_true_iff in Hn. rewrite <- not_true_iff_false in Hn. apply Hn.
    apply existsb_exists. exists i. split; [assumption|]. apply String.eqb_eq. auto.
  - intros [Hp Hi]. apply in_map_iff in Hp as (p & <- & Hp).
    exists p. split; [reflexivity|]. apply filter_In. split; [assumption|].
    apply negb_true_iff, not_true_iff_false. intros He.
    apply existsb_exists in He as (i & Hi' & He). apply String.eqb_eq in He.
    apply Hi, in_map_iff. exists i. auto.
Qed.

Lemma nil_iff_no_member_gen {A} (l : list A) : (forall x, ~ In x l) -> l = [].
Proof. destruct l as [|x l]; [auto|]. intros H. exfalso. apply (H x). left. reflexivity. Qed.

Lemma nil_iff_no_member (l : list string) : l = [] <-> (forall n, ~ In n l).
Proof.
  split.
  - intros -> n H. inversion H.
  - destruct l as [|x l]; [auto|]. intros H. exfalso. apply (H x). left. reflexivity.
Qed.

(** C1 (amended): the check compares the SETS of names.
    [orphaned_intervals] holds exactly the [ProgramInterval] names that no
    [Program] row has, [missing_intervals] exactly the [Program] names that
    no [ProgramInterval] row has, [is_valid] is false exactly when one of
    the two lists is non-empty, so it is true exactly when both tables have
    the same set of names; in particular a 1:1 correspondence gives
    [is_valid = true] with both lists empty.  Duplicated names on either
    side are not seen by this check. *)
Theorem referential_integrity_by_name_sets (d : db) :
  let r := validate_referential_integrity d in
  (forall n, In n (orphaned_intervals r) <-> In n (interval_names d) /\ ~ In n (program_names d))
  /\ (forall n, In n (missing_intervals r) <-> In n (program_names d) /\ ~ In n (interval_names d))
  /\ (ri_is_valid r = true <-> orphaned_intervals r = [] /\ missing_intervals r = [])
  /\ (ri_is_valid r = true <-> (forall n, In n (program_names d) <-> In n (interval_names d)))
  /\ (one_to_one d -> ri_is_valid r = true /\ orphaned_intervals r = [] /\ missing_intervals r = []).
Proof.
  intros r. destruct (referential_fields d) as (Ho & Hm & Hv).
  subst r. rewrite Ho, Hm, Hv.
  assert (Hvalid : is_nil (orphaned_query d) && is_nil (missing_query d) = true
                   <-> orphaned_query d = [] /\ missing_query d = []).
  { rewrite andb_true_iff, !is_nil_true. tauto. }
  assert (Hsets : orphaned_query d = [] /\ missing_query d = []
                  <-> (forall n, In n (program_names d) <-> In n (interval_names d))).
  { rewrite !nil_iff_no_member. split.
    - intros [Hno Hnm] n. split; intros Hin.
      + destruct (in_dec string_dec n (interval_names d)) as [|Hni]; [assumption|].
        exfalso. apply (Hnm n). apply in_missing_query. auto.
      + destruct (in_dec string_dec n (program_names d)) as [|Hnp]; [assumption|].
        exfalso. apply (Hno n). apply in_orphaned_query. auto.
    - intros Heq. split; intros n Hn.
      + apply in_orphaned_query in Hn as [Hi Hp]. apply Hp, Heq, Hi.
      + apply in_missing_query in Hn as [Hp Hi]. apply Hi, Heq, Hp. }
  split; [apply in_orphaned_query|].
  split; [apply in_missing_query|].
  split; [exact Hvalid|].
  split; [rewrite Hvalid; exact Hsets|].
  intros [H1 H2].
  assert (Hb : orphaned_query d = [] /\ missing_query d = []).
  { apply Hsets. intros n. split; intros Hin.
    - unfold program_names in Hin. apply in_map_iff in Hin as (p & <- & Hp).
      apply (count_occ_In string_dec). rewrite (H1 p Hp). auto.
    - unfold interval_names in Hin. apply in_map_iff in Hin as (i & <- & Hi).
      apply (count_occ_In string_dec). rewrite (H2 i Hi). auto. }
  destruct Hb as [Hb1 Hb2]. rewrite Hb1, Hb2. auto.
Qed.

(** C1 (counterexample): two [Program] rows named ["A"] and one
    [ProgramInterval] row ["A"] do not correspond 1:1, yet the check
    returns [is_valid = true] with both lists empty. *)
Lemma referential_integrity_duplicate_names_pass :
  let d := mk_db [mk_program 1 "A" 0 900; mk_program 2 "A" 900 1800] [mk_interval "A" 1] in
  ri_is_valid (validate_referential_integrity d) = true
  /\ orphaned_intervals (validate_referential_integrity d) = []
  /\ missing_intervals (validate_referential_integrity d) = []
  /\ ~ one_to_one d.
Proof.
  intros d. split; [reflexivity|]. split; [reflexivity|]. split; [reflexivity|].
  intros [_ H2]. specialize (H2 (mk_interval "A" 1) (or_introl eq_refl)).
  vm_compute in H2. discriminate H2.
Qed.

(** ** Time constraints *)

Lemma time_constraints_fields (d : db) :
  overlapping_programs (validate_time_constraints d) = overlap_query d
  /\ negative_durations (validate_time_constraints d) = negative_query d
  /\ tc_is_valid (validate_time_constraints d)
     = is_nil (invalid_times_query d) && is_nil (overlap_query d) && is_nil (negative_query d).
Proof.
  unfold validate_time_constraints.
  destruct (invalid_times_query d), (overlap_query d), (negative_query d); simpl; auto.
Qed.

Lemma in_overlap_query (d : db) (x : overlap_row) :
  In x (overlap_query d) <->
  exists p1 p2, In p1 (programs d) /\ In p2 (programs d) /\ (id p1 < id p2)%Z
                /\ overlap_cond p1 p2 = true /\ x = overlap_row_of p1 p2.
Proof.
  unfold overlap_query. rewrite in_flat_map. split.
  - intros (p1 & Hp1 & Hx). apply in_map_iff in Hx as (p2 & <- & Hp2).
    apply filter_In in Hp2 as [Hp2 Hc]. apply andb_true_iff in Hc as [Hid Hc].
    apply Z.ltb_lt in Hid. exists p1, p2. auto.
  - intros (p1 & p2 & Hp1 & Hp2 & Hid & Hc & ->). exists p1. split; [assumption|].
    apply in_map. apply filter_In. split; [assumption|].
    apply andb_true_iff. split; [apply Z.ltb_lt|]; assumption.
Qed.

Lemma overlap_cond_row (p1 p2 q1 q2 : program) :
  overlap_row_of p1 p2 = overlap_row_of q1 q2 -> overlap_cond p1 p2 = overlap_cond q1 q2.
Proof.
  unfold overlap_row_of, overlap_cond. intros H. injection H.
  intros -> -> -> -> _ _. reflexivity.
Qed.

Lemma overlap_cond_sym (p1 p2 : program) : overlap_cond p1 p2 = overlap_cond p2 p1.
Proof.
  unfold overlap_cond.
  destruct (start_time p1 <? end_time p2)%Z, (start_time p2 <? end_time p1)%Z,
           (end_time p1 <? start_time p1)%Z, (end_time p2 <? start_time p2)%Z; reflexivity.
Qed.

Lemma overlap_cond_linear (A B : program) :
  (start_time A <= end_time A)%Z -> (start_time B <= end_time B)%Z ->
  overlap_cond A B = true <-> (start_time A < end_time B /\ end_time A > start_time B)%Z.
Proof.
  intros HA HB. unfold overlap_cond.
  rewrite !andb_true_iff, negb_true_iff, orb_false_iff, !Z.ltb_lt, !Z.ltb_ge. lia.
Qed.

Lemma overlap_cond_overnight (A B : program) :
  (start_time A > end_time A)%Z \/ (start_time B > end_time B)%Z -> overlap_cond A B = false.
Proof.
  intros H. unfold overlap_cond.
  destruct H as [H|H].
  - replace (end_time A <? start_time A)%Z with true by (symmetry; apply Z.ltb_lt; lia).
    rewrite !andb_false_r. reflexivity.
  - replace (end_time B <? start_time B)%Z with true by (symmetry; apply Z.ltb_lt; lia).
    rewrite orb_true_r, !andb_false_r. reflexivity.
Qed.

Lemma reported_overlap_cond (d : db) (A B : program) :
  reported_overlap (validate_time_constraints d) A B -> overlap_cond A B = true.
Proof.
  unfold reported_overlap. rewrite (proj1 (time_constraints_fields d)).
  intros [H|H]; apply in_overlap_query in H as (p1 & p2 & _ & _ & _ & Hc & Hx).
  - rewrite (overlap_cond_row _ _ _ _ Hx). exact Hc.
  - rewrite overlap_cond_sym, (overlap_cond_row _ _ _ _ Hx). exact Hc.
Qed.

(** C2: for two distinct rows [A], [B] of [programs] that are not overnight,
    the pair is reported in [overlapping_programs] exactly when
    [A.start < B.end] and [A.end > B.start], and then [is_valid] is false;
    a pair with an overnight program ([start > end]) is never reported, nor
    a pair of adjacent programs ([A.end = B.start]). *)
Theorem overlapping_programs_spec (d : db) (A B : program)
  (HA : In A (programs d)) (HB : In B (programs d)) (Hdistinct : id A <> id B) :
  let r := validate_time_constraints d in
  ((start_time A <= end_time A)%Z -> (start_time B <= end_time B)%Z ->
     (reported_overlap r A B <-> (start_time A < end_time B /\ end_time A > start_time B)%Z)
     /\ ((start_time A < end_time B /\ end_time A > start_time B)%Z -> tc_is_valid r = false))
  /\ ((start_time A > end_time A \/ start_time B > end_time B)%Z -> ~ reported_overlap r A B)
  /\ (end_time A = start_time B -> ~ reported_overlap r A B).
Proof.
  intros r.
  assert (Hin : overlap_cond A B = true -> reported_overlap r A B).
  { intros Hc. unfold reported_overlap, r. rewrite (proj1 (time_constraints_fields d)).
    destruct (Z.lt_total (id A) (id B)) as [Hlt|[Heq|Hgt]].
    - left. apply in_overlap_query. exists A, B. auto.
    - contradiction.
    - right. apply in_overlap_query. exists B, A.
      rewrite overlap_cond_sym. auto. }
  split; [|split].
  - intros HlA HlB.
    assert (Hiff : reported_overlap r A B
                   <-> (start_time A < end_time B /\ end_time A > start_time B)%Z).
    { rewrite <- overlap_cond_linear by assumption. split.
      - apply reported_overlap_cond.
      - exact Hin. }
    split; [exact Hiff|].
    intros Hov. apply Hiff in Hov. unfold reported_overlap in Hov.
    unfold r. rewrite (proj2 (proj2 (time_constraints_fields d))).
    destruct (time_constraints_fields d) as [Ho _].
    destruct (overlap_query d) eqn:Eq.
    + exfalso. subst r. rewrite Ho in Hov. destruct Hov as [H|H]; inversion H.
    + rewrite andb_false_r. reflexivity.
  - intros Hon Hrep. apply reported_overlap_cond in Hrep.
    rewrite overlap_cond_overnight in Hrep by assumption. discriminate.
  - intros Hadj Hrep. apply reported_overlap_cond in Hrep.
    unfold overlap_cond in Hrep. rewrite !andb_true_iff, !Z.ltb_lt in Hrep. lia.
Qed.

(** C2 at 09:00-10:30 and 10:00-11:00. *)
Lemma overlapping_programs_spec_witness :
  In show_a (programs schedule_ab) /\ In show_b (programs schedule_ab) /\ id show_a <> id show_b
  /\ reported_overlap (validate_time_constraints schedule_ab) show_a show_b.
Proof.
  assert (HA : In show_a (programs schedule_ab)) by (left; reflexivity).
  assert (HB : In show_b (programs schedule_ab)) by (right; left; reflexivity).
  assert (Hid : id show_a <> id show_b) by discriminate.
  split; [exact HA|]. split; [exact HB|]. split; [exact Hid|].
  apply (proj1 (overlapping_programs_spec schedule_ab show_a show_b HA HB Hid)).
  - vm_compute. discriminate.
  - vm_compute. discriminate.
  - vm_compute. split; reflexivity.
Defined.

(** ** Interval calculations *)

Section IntervalProofs.

Variable count_15min_intervals : Z -> Z -> Z.

Lemma in_incorrect_query (d : db) (x : calc_row) :
  In x (incorrect_query count_15min_intervals d) <->
  exists p i, In p (programs d) /\ In i (program_intervals d)
              /\ program_name p = pi_program_name i
              /\ interval_count i <> count_15min_intervals (start_time p) (end_time p)
              /\ x = calc_row_of count_15min_intervals p i.
Proof.
  unfold incorrect_query. rewrite in_flat_map. split.
  - intros (p & Hp & Hx). apply in_map_iff in Hx as (i & <- & Hi).
    apply filter_In in Hi as [Hi Hc]. apply andb_true_iff in Hc as [Hn Hc].
    apply String.eqb_eq in Hn. apply negb_true_iff, Z.eqb_neq in Hc.
    exists p, i. auto.
  - intros (p & i & Hp & Hi & Hn & Hc & ->). exists p. split; [assumption|].
    apply in_map, filter_In. split; [assumption|].
    apply andb_true_iff. split.
    + apply String.eqb_eq. assumption.
    + apply negb_true_iff, Z.eqb_neq. assumption.
Qed.

Lemma interval_calculations_fields (d : db) :
  incorrect_calculations (validate_interval_calculations count_15min_intervals d)
    = incorrect_query count_15min_intervals d
  /\ ic_is_valid (validate_interval_calculations count_15min_intervals d)
     = is_nil (incorrect_query count_15min_intervals d).
Proof.
  unfold validate_interval_calculations.
  destruct (incorrect_query count_15min_intervals d); simpl; auto.
Qed.

(** C3: for a [Program] row [p] and a [ProgramInterval] row [i] of the same
    name, the record [(name, start, end, stored, calculated)] is in
    [incorrect_calculations] exactly when the stored count differs from
    [count_15min_intervals(start, end)]; every record of the list is such a
    mismatch, carrying the program name, the stored count and the
    calculated count; [is_valid] is false exactly when a mismatch exists. *)
Theorem incorrect_calculations_spec (d : db) (p : program) (i : program_interval)
  (Hp : In p (programs d)) (Hi : In i (program_intervals d))
  (Hname : program_name p = pi_program_name i) :
  let r := validate_interval_calculations count_15min_intervals d in
  (In (calc_row_of count_15min_intervals p i) (incorrect_calculations r)
     <-> interval_count i <> count_15min_intervals (start_time p) (end_time p))
  /\ (forall x, In x (incorrect_calculations r) ->
        exists p' i', In p' (programs d) /\ In i' (program_intervals d)
          /\ cr_name x = program_name p' /\ program_name p' = pi_program_name i'
          /\ stored_count x = interval_count i'
          /\ calculated_count x = count_15min_intervals (start_time p') (end_time p')
          /\ stored_count x <> calculated_count x)
  /\ (ic_is_valid r = false <->
        exists p' i', In p' (programs d) /\ In i' (program_intervals d)
          /\ program_name p' = pi_program_name i'
          /\ interval_count i' <> count_15min_intervals (start_time p') (end_time p')).
Proof.
  intros r. destruct (interval_calculations_fields d) as [Hl Hv].
  subst r. rewrite Hl, Hv. split; [|split].
  - split.
    + intros Hx. apply in_incorrect_query in Hx as (p' & i' & _ & _ & _ & Hc & Hx).
      unfold calc_row_of in Hx. injection Hx. intros Hcalc Hstored _ _ _.
      rewrite Hstored, Hcalc. exact Hc.
    + intros Hc. apply in_incorrect_query. exists p, i. auto.
  - intros x Hx. apply in_incorrect_query in Hx as (p' & i' & Hp' & Hi' & Hn & Hc & ->).
    exists p', i'. simpl. repeat split; auto.
  - destruct (incorrect_query count_15min_intervals d) as [|x l] eqn:Eq; simpl.
    + split; [discriminate|]. intros (p' & i' & Hp' & Hi' & Hn & Hc).
      assert (Hin : In (calc_row_of count_15min_intervals p' i') (incorrect_query count_15min_intervals d)).
      { apply in_incorrect_query. exists p', i'. auto. }
      rewrite Eq in Hin. inversion Hin.
    + split; [|reflexivity]. intros _.
      assert (Hx : In x (incorrect_query count_15min_intervals d)) by (rewrite Eq; left; reflexivity).
      apply in_incorrect_query in Hx as (p' & i' & Hp' & Hi' & Hn & Hc & _).
      exists p', i'. auto.
Qed.

End IntervalProofs.

(** C3 at a 90-minute show stored with 4 intervals instead of 6. *)
Lemma incorrect_calculations_spec_witness :
  In news_90 (programs schedule_news) /\ In news_90_interval (program_intervals schedule_news)
  /\ program_name news_90 = pi_program_name news_90_interval
  /\ In (mk_calc_row "Evening News" 64800 70200 4 6)
        (incorrect_calculations (validate_interval_calculations quarter_hours schedule_news)).
Proof.
  assert (Hp : In news_90 (programs schedule_news)) by (left; reflexivity).
  assert (Hi : In news_90_interval (program_intervals schedule_news)) by (left; reflexivity).
  assert (Hn : program_name news_90 = pi_program_name news_90_interval) by reflexivity.
  split; [exact Hp|]. split; [exact Hi|]. split; [exact Hn|].
  change (In (calc_row_of quarter_hours news_90 news_90_interval)
            (incorrect_calculations (validate_interval_calculations quarter_hours schedule_news))).
  apply (proj2 (proj1 (incorrect_calculations_spec quarter_hours schedule_news news_90 news_90_interval Hp Hi Hn))).
  vm_compute. discriminate.
Defined.

Lemma in_negative_query (d : db) (x : time_row) :
  In x (negative_query d) <-> exists p, In p (programs d) /\ negative_cond p = true /\ x = time_row_of p.
Proof.
  unfold negative_query. rewrite in_map_iff. split.
  - intros (p & <- & Hp). apply filter_In in Hp as [Hp Hc]. exists p. auto.
  - intros (p & Hp & Hc & ->). exists p. split; [reflexivity|]. apply filter_In. auto.
Qed.

Lemma negative_cond_iff (p : program) :
  negative_cond p = true
  <-> (start_time p > end_time p)%Z
      /\ ~ ((start_time p > time_noon)%Z /\ (end_time p < time_noon)%Z).
Proof.
  unfold negative_cond.
  rewrite andb_true_iff, negb_true_iff, Z.ltb_lt.
  destruct (time_noon <? start_time p)%Z eqn:E1, (end_time p <? time_noon)%Z eqn:E2;
    rewrite ?Z.ltb_lt, ?Z.ltb_ge in E1, E2; simpl; split; intros [H1 H2]; split;
    try lia; try discriminate; try (intros [? ?]; lia); exfalso; apply H2; lia.
Qed.

(** C5: a row [p] of [programs] is in [negative_durations] exactly when
    [start > end] and not ([start > 12:00] and [end < 12:00]); programs
    that pass the noon test are taken as overnight and left out; a
    reported program makes [is_valid] false. *)
Theorem negative_durations_spec (d : db) (p : program) (Hp : In p (programs d)) :
  let r := validate_time_constraints d in
  (In (time_row_of p) (negative_durations r)
     <-> (start_time p > end_time p)%Z
         /\ ~ ((start_time p > time_noon)%Z /\ (end_time p < time_noon)%Z))
  /\ ((start_time p > end_time p)%Z
      /\ ~ ((start_time p > time_noon)%Z /\ (end_time p < time_noon)%Z)
      -> tc_is_valid r = false).
Proof.
  intros r. destruct (time_constraints_fields d) as (_ & Hn & Hv).
  assert (Hiff : In (time_row_of p) (negative_durations r) <-> negative_cond p = true).
  { subst r. rewrite Hn, in_negative_query. split.
    - intros (q & _ & Hc & Hx). unfold time_row_of in Hx. injection Hx.
      intros E1 E2 _. unfold negative_cond. rewrite E1, E2. exact Hc.
    - intros Hc. exists p. auto. }
  rewrite <- negative_cond_iff. split; [exact Hiff|].
  intros Hc. apply Hiff in Hc. subst r. rewrite Hv. rewrite Hn in Hc.
  destruct (negative_query d); [inversion Hc|]. rewrite andb_false_r. reflexivity.
Qed.

(** C5 at a program 10:00-01:00 (reported) and 23:00-01:00 (not reported). *)
Lemma negative_durations_spec_witness :
  In show_backwards (programs schedule_night)
  /\ In (time_row_of show_backwards) (negative_durations (validate_time_constraints schedule_night))
  /\ In show_overnight (programs schedule_night)
  /\ ~ In (time_row_of show_overnight) (negative_durations (validate_time_constraints schedule_night)).
Proof.
  assert (Hb : In show_backwards (programs schedule_night)) by (right; left; reflexivity).
  assert (Ho : In show_overnight (programs schedule_night)) by (left; reflexivity).
  split; [exact Hb|]. split.
  - apply (proj2 (proj1 (negative_durations_spec schedule_night show_backwards Hb))).
    vm_compute. split; [reflexivity|]. intros [H _]. discriminate H.
  - split; [exact Ho|]. rewrite (proj1 (negative_durations_spec schedule_night show_overnight Ho)).
    intros [_ H]. apply H. vm_compute. split; reflexivity.
Defined.

(** ** Data quality *)

Lemma data_quality_fields (d : db) :
  let r := validate_data_quality d in
  zero_duration r = zero_duration_query d
  /\ dq_is_valid r = is_nil (duplicates_query d) && is_nil (empty_names_query d)
                     && is_nil (long_names_query d)
  /\ (zero_duration_query d <> [] -> In (zero_duration_message d) (dq_errors r)).
Proof.
  unfold validate_data_quality, zero_duration_message.
  destruct (duplicates_query d), (empty_names_query d), (long_names_query d),
           (zero_duration_query d); simpl; repeat split; try congruence;
    intros _; rewrite ?in_app_iff; simpl; auto.
Qed.

Lemma in_zero_duration_query (d : db) (p : program) :
  In p (programs d) -> start_time p = end_time p -> In (time_row_of p) (zero_duration_query d).
Proof.
  intros Hp He. unfold zero_duration_query. apply in_map, filter_In.
  split; [assumption|]. apply Z.eqb_eq. assumption.
Qed.

(** C6: every program with [start == end] is in [zero_duration], and
    [is_valid] of the data-quality check depends only on the duplicate,
    empty and long name queries, so a dataset whose only data-quality
    finding is zero-duration programs passes the check. *)
Theorem zero_duration_non_blocking (d : db) :
  let r := validate_data_quality d in
  (forall p, In p (programs d) -> start_time p = end_time p -> In (time_row_of p) (zero_duration r))
  /\ dq_is_valid r = is_nil (duplicates_query d) && is_nil (empty_names_query d)
                     && is_nil (long_names_query d)
  /\ (duplicates_query d = [] -> empty_names_query d = [] -> long_names_query d = [] ->
      dq_is_valid r = true).
Proof.
  intros r. destruct (data_quality_fields d) as (Hz & Hv & _).
  subst r. split; [|split].
  - intros p Hp He. rewrite Hz. apply in_zero_duration_query; assumption.
  - exact Hv.
  - intros H1 H2 H3. rewrite Hv, H1, H2, H3. reflexivity.
Qed.

(** C7 (counterexample): the zero-duration finding of a dataset with one
    program 10:00-10:00 is an entry of the data-quality [errors] list, and
    the data-quality result has no [warnings] list. *)
Lemma zero_duration_reported_as_error :
  In "Found 1 zero-duration programs (may be valid)"
     (dq_errors (validate_data_quality schedule_quiet))
  /\ dv_warnings (dq_view (validate_data_quality schedule_quiet)) = None.
Proof. vm_compute. split; [left; reflexivity | reflexivity]. Qed.

(** C7 (amended): when a zero-duration program exists, the message
    ["Found N zero-duration programs (may be valid)"] is appended to the
    [errors] list of the data-quality check, which has no [warnings] list,
    and [is_valid] is left as the other three queries set it. *)
Theorem zero_duration_message_in_errors (d : db) (p : program)
  (Hp : In p (programs d)) (Hzero : start_time p = end_time p) :
  let r := validate_data_quality d in
  In (zero_duration_message d) (dq_errors r)
  /\ dv_warnings (dq_view r) = None
  /\ dq_is_valid r = is_nil (duplicates_query d) && is_nil (empty_names_query d)
                     && is_nil (long_names_query d).
Proof.
  intros r. destruct (data_quality_fields d) as (_ & Hv & Hin).
  subst r. split; [|split; [reflexivity|exact Hv]].
  apply Hin. intros Hnil. pose proof (in_zero_duration_query d p Hp Hzero) as H.
  rewrite Hnil in H. inversion H.
Qed.

Lemma zero_duration_message_in_errors_witness :
  In quiet_slot (programs schedule_quiet) /\ start_time quiet_slot = end_time quiet_slot
  /\ In (zero_duration_message schedule_quiet) (dq_errors (validate_data_quality schedule_quiet)).
Proof.
  assert (Hp : In quiet_slot (programs schedule_quiet)) by (left; reflexivity).
  assert (Hz : start_time quiet_slot = end_time quiet_slot) by reflexivity.
  split; [exact Hp|]. split; [exact Hz|].
  exact (proj1 (zero_duration_message_in_errors schedule_quiet quiet_slot Hp Hz)).
Defined.

(** ** Substrings of the report *)

Lemma prefix_iff (t s : string) : String.prefix t s = true <-> exists q, s = (t ++ q)%string.
Proof.
  revert s. induction t as [|c t IH]; intros s.
  - simpl. destruct s; split; intros; eauto.
  - destruct s as [|c' s]; simpl.
    + split; [discriminate|]. intros [q Hq]. discriminate.
    + destruct (ascii_dec c c') as [<-|Hne].
      * rewrite IH. split; intros [q Hq]; exists q; [congruence|]. injection Hq; auto.
      * split; [discriminate|]. intros [q Hq]. injection Hq. intros _ E. congruence.
Qed.

Lemma contains_iff (t s : string) :
  contains t s = true <-> exists p q, s = (p ++ t ++ q)%string.
Proof.
  induction s as [|c s IH]; cbn [contains].
  - rewrite orb_false_r, prefix_iff. split.
    + intros [q Hq]. exists EmptyString, q. exact Hq.
    + intros ([|c p] & q & Hq); [exists q; exact Hq|discriminate].
  - rewrite orb_true_iff, prefix_iff, IH. split.
    + intros [[q Hq] | (p & q & Hq)].
      * exists EmptyString, q. exact Hq.
      * exists (String c p), q. simpl. congruence.
    + intros ([|c' p] & q & Hq).
      * left. exists q. exact Hq.
      * right. exists p, q. injection Hq. auto.
Qed.

Lemma char_in_app (c : ascii) (a b : string) :
  char_in c (a ++ b) = char_in c a || char_in c b.
Proof.
  induction a as [|c' a IH]; simpl; [reflexivity|]. rewrite IH, orb_assoc. reflexivity.
Qed.

(** A character of [t] that [s] lacks keeps [t] out of [s]. *)
Lemma contains_char_absent (c : ascii) (t s : string) :
  char_in c t = true -> char_in c s = false -> contains t s = false.
Proof.
  intros Ht Hs. apply not_true_iff_false. intros Hc.
  apply contains_iff in Hc as (p & q & ->).
  rewrite !char_in_app, Ht, orb_true_r in Hs. discriminate.
Qed.

Lemma str_app_assoc (a b c : string) : (a ++ (b ++ c))%string = ((a ++ b) ++ c)%string.
Proof. induction a as [|x a IH]; simpl; congruence. Qed.

Lemma str_app_nil_r (a : string) : (a ++ "")%string = a.
Proof. induction a as [|x a IH]; simpl; congruence. Qed.

Lemma contains_app_r (t a b : string) : contains t b = true -> contains t (a ++ b) = true.
Proof.
  rewrite !contains_iff. intros (p & q & ->). exists (a ++ p)%string, q.
  rewrite str_app_assoc. reflexivity.
Qed.

Lemma contains_app_l (t a b : string) : contains t a = true -> contains t (a ++ b) = true.
Proof.
  rewrite !contains_iff. intros (p & q & ->). exists p, (q ++ b)%string.
  rewrite !str_app_assoc. reflexivity.
Qed.

Lemma contains_refl (t : string) : contains t t = true.
Proof. apply contains_iff. exists EmptyString, EmptyString. rewrite str_app_nil_r. reflexivity. Qed.

(** A string without a line break that is a prefix of [x ++ "\n" ++ y] is
    a prefix of [x]. *)
Lemma prefix_before_nl (t q x y : string) :
  (t ++ q)%string = (x ++ String nl y)%string -> char_in nl t = false ->
  exists q', x = (t ++ q')%string.
Proof.
  revert x. induction t as [|c t IH]; intros x Heq Hnl.
  - exists x. reflexivity.
  - cbn [char_in] in Hnl. apply orb_false_iff in Hnl as [Hc Hnl].
    destruct x as [|c' x]; simpl in Heq.
    + injection Heq. intros; subst. vm_compute in Hc. discriminate.
    + injection Heq. intros Heq' <-. destruct (IH x Heq' Hnl) as [q' ->].
      exists q'. reflexivity.
Qed.

(** A string without a line break inside [a ++ "\n" ++ b] lies in [a] or in [b]. *)
Lemma contains_across_nl (t a b : string) :
  char_in nl t = false -> contains t (a ++ String nl b) = true ->
  contains t a = true \/ contains t b = true.
Proof.
  intros Hnl. rewrite !contains_iff. intros (p & q & Hs). revert p Hs.
  induction a as [|c a IH]; intros p Hs.
  - destruct p as [|c p]; simpl in Hs.
    + destruct t as [|c t].
      * right. exists EmptyString, b. reflexivity.
      * simpl in Hs. cbn [char_in] in Hnl. injection Hs. intros; subst.
        apply orb_false_iff in Hnl as [Hc _]. vm_compute in Hc. discriminate.
    + injection Hs. intros Hb _. right. exists p, q. exact Hb.
  - destruct p as [|c' p]; simpl in Hs.
    + destruct (prefix_before_nl t q (String c a) b) as [q' Hq']; [symmetry; exact Hs|exact Hnl|].
      left. exists EmptyString, q'. exact Hq'.
    + injection Hs. intros Hs' _. destruct (IH p Hs') as [(p' & q' & Ha) | Hb].
      * left. exists (String c p'), q'. simpl. congruence.
      * right. exact Hb.
Qed.

Lemma join_cons2 (x y : string) (rest : list string) :
  join newline (x :: y :: rest) = (x ++ String nl (join newline (y :: rest)))%string.
Proof. reflexivity. Qed.

Lemma contains_join (t : string) (ls : list string) :
  char_in nl t = false -> contains t (join newline ls) = true ->
  t = EmptyString \/ exists l, In l ls /\ contains t l = true.
Proof.
  intros Hnl. induction ls as [|x ls IH]; intros H.
  - destruct t; [left; reflexivity|]. simpl in H. discriminate.
  - destruct ls as [|y ls].
    + right. exists x. split; [left; reflexivity|exact H].
    + rewrite join_cons2 in H. destruct (contains_across_nl _ _ _ Hnl H) as [H1|H1].
      * right. exists x. split; [left; reflexivity|exact H1].
      * destruct (IH H1) as [E|(l & Hl & Hc)]; [left; exact E|].
        right. exists l. split; [right; exact Hl|exact Hc].
Qed.

Lemma join_contains_line (l : string) (ls : list string) :
  In l ls -> contains l (join newline ls) = true.
Proof.
  induction ls as [|x ls IH]; intros Hin; [inversion Hin|].
  destruct ls as [|y ls].
  - destruct Hin as [<-|[]]. apply contains_refl.
  - rewrite join_cons2. destruct Hin as [<-|Hin].
    + apply contains_app_l, contains_refl.
    + apply contains_app_r. simpl. rewrite orb_true_iff. right. apply IH, Hin.
Qed.

(** ** Report lines *)

Lemma non_digit_O : non_digit letter_O.
Proof. intros d Hd. do 10 (destruct d as [|d]; [reflexivity|]). lia. Qed.

Lemma digits_aux_no_char (c : ascii) (fuel n : nat) (acc : string) :
  non_digit c -> char_in c acc = false -> char_in c (digits_aux fuel n acc) = false.
Proof.
  intros Hc. revert n acc. induction fuel as [|fuel IH]; intros n acc Hacc; simpl; [exact Hacc|].
  assert (Hacc' : char_in c (String (digit_char (n mod 10)) acc) = false).
  { cbn [char_in]. rewrite Hc, Hacc; [reflexivity|]. apply Nat.mod_upper_bound. lia. }
  destruct (Nat.ltb n 10); [exact Hacc'|]. apply IH, Hacc'.
Qed.

Lemma str_nat_no_char (c : ascii) (n : nat) : non_digit c -> char_in c (str_nat n) = false.
Proof. intros Hc. apply digits_aux_no_char; [exact Hc|reflexivity]. Qed.

Lemma str_nat_no_O (n : nat) : char_in letter_O (str_nat n) = false.
Proof. apply str_nat_no_char, non_digit_O. Qed.

Lemma validator_message_no_O (m : string) : validator_message m -> char_in letter_O m = false.
Proof.
  intros (n & sfx & Hs & ->). unfold found. rewrite !char_in_app, str_nat_no_O.
  assert (Hall : forallb (fun s => negb (char_in letter_O s)) validator_suffixes = true)
    by (vm_compute; reflexivity).
  rewrite forallb_forall in Hall. specialize (Hall sfx Hs).
  apply negb_true_iff in Hall. rewrite Hall. reflexivity.
Qed.

Lemma item_line_no_O (e : string) :
  char_in letter_O e = false -> char_in letter_O ("    - " ++ e)%string = false.
Proof. intros He. rewrite char_in_app, He. reflexivity. Qed.

Lemma section_lines_cases (c : string) (v : dict_view) (l : string) :
  In c report_checks ->
  Forall (fun m => char_in letter_O m = false) (get_list (dv_errors v)) ->
  Forall (fun m => char_in letter_O m = false) (get_list (dv_warnings v)) ->
  In l (section_lines c v) -> In l constant_lines \/ char_in letter_O l = false.
Proof.
  intros Hc He Hw Hl. unfold section_lines in Hl.
  rewrite !in_app_iff in Hl. destruct Hl as [[<-|[<-|[]]] | [Hl | [Hl | [<-|[]]]]].
  - left. unfold constant_lines.
    destruct Hc as [<-|[<-|[<-|[<-|[<-|[]]]]]]; simpl In;
      repeat (solve [left; vm_compute; reflexivity] || right).
  - right. destruct (get_is_valid v); reflexivity.
  - right. destruct (get_list (dv_errors v)) as [|e es]; [inversion Hl|].
    destruct Hl as [<-|Hl]; [reflexivity|].
    apply in_map_iff in Hl as (e' & <- & He'). apply item_line_no_O.
    rewrite Forall_forall in He. apply He, He'.
  - right. destruct (get_list (dv_warnings v)) as [|w ws]; [inversion Hl|].
    destruct Hl as [<-|Hl]; [reflexivity|].
    apply in_map_iff in Hl as (w' & <- & Hw'). apply item_line_no_O.
    rewrite Forall_forall in Hw. apply Hw, Hw'.
  - right. reflexivity.
Qed.

Lemma report_lines_sections (r : all_results) :
  report_lines r =
    [rule60; "DATA INTEGRITY VALIDATION REPORT"; rule60; status_line r;
     ("Checks Performed: " ++ str_nat (checks_performed (summary_of r)))%string;
     ("Total Errors: " ++ str_nat (total_errors (summary_of r)))%string;
     ("Total Warnings: " ++ str_nat (total_warnings (summary_of r)))%string; ""]
    ++ section_lines "referential_integrity" (ri_view (referential_integrity r))
    ++ section_lines "time_constraints" (tc_view (time_constraints r))
    ++ section_lines "interval_calculations" (ic_view (interval_calculations r))
    ++ section_lines "data_quality" (dq_view (data_quality r))
    ++ section_lines "business_rules" (br_view (business_rules r))
    ++ [rule60].
Proof.
  assert (E : forall A (l1 l2 l3 l4 l5 t : list A),
             (l1 ++ l2 ++ l3 ++ l4 ++ l5 ++ []) ++ t = l1 ++ l2 ++ l3 ++ l4 ++ l5 ++ t).
  { intros. rewrite app_nil_r, <- !app_assoc. reflexivity. }
  unfold report_lines. f_equal.
  rewrite <- (E _ (section_lines "referential_integrity" (ri_view (referential_integrity r)))
                  (section_lines "time_constraints" (tc_view (time_constraints r)))
                  (section_lines "interval_calculations" (ic_view (interval_calculations r)))
                  (section_lines "data_quality" (dq_view (data_quality r)))
                  (section_lines "business_rules" (br_view (business_rules r)))).
  reflexivity.
Qed.

Lemma section_lines_ok (c title : string) (v : dict_view) :
  (upper (replace_underscore c))%string = title ->
  section_ok title (get_is_valid v)
    (get_list (dv_errors v)) (get_list (dv_warnings v)) (section_lines c v).
Proof.
  intros <-. unfold section_lines, section_ok. eexists. split; [reflexivity|].
  split.
  - intros e He. apply in_app_iff. left.
    destruct (get_list (dv_errors v)); [inversion He|]. right. apply in_map, He.
  - intros w Hw. apply in_app_iff. right. apply in_app_iff. left.
    destruct (get_list (dv_warnings v)); [inversion Hw|]. right. apply in_map, Hw.
Qed.

Lemma report_lines_cases (r : all_results) (l : string) :
  Forall (fun m => char_in letter_O m = false) (report_messages r) ->
  In l (report_lines r) ->
  l = status_line r \/ In l constant_lines \/ char_in letter_O l = false.
Proof.
  intros Hm Hl. unfold report_messages in Hm. rewrite !Forall_app in Hm.
  destruct Hm as (H1 & H2 & H3 & H4 & H5 & H6).
  rewrite report_lines_sections in Hl. rewrite !in_app_iff in Hl.
  assert (Hnil : Forall (fun m => char_in letter_O m = false) (get_list None)) by constructor.
  destruct Hl as [Hl | [Hl | [Hl | [Hl | [Hl | [Hl | Hl]]]]]].
  - destruct Hl as [<-|[<-|[<-|[<-|[<-|[<-|[<-|[<-|[]]]]]]]]].
    + right. left. left. reflexivity.
    + right. left. right. left. reflexivity.
    + right. left. left. reflexivity.
    + left. reflexivity.
    + right. right. rewrite char_in_app, str_nat_no_O. reflexivity.
    + right. right. rewrite char_in_app, str_nat_no_O. reflexivity.
    + right. right. rewrite char_in_app, str_nat_no_O. reflexivity.
    + right. right. reflexivity.
  - right. apply (section_lines_cases "referential_integrity" (ri_view (referential_integrity r)) l); [| exact H1 | exact Hnil | exact Hl]. left. reflexivity.
  - right. apply (section_lines_cases "time_constraints" (tc_view (time_constraints r)) l); [| exact H2 | exact Hnil | exact Hl]. right. left. reflexivity.
  - right. apply (section_lines_cases "interval_calculations" (ic_view (interval_calculations r)) l); [| exact H3 | exact Hnil | exact Hl]. do 2 right. left. reflexivity.
  - right. apply (section_lines_cases "data_quality" (dq_view (data_quality r)) l); [| exact H4 | exact Hnil | exact Hl]. do 3 right. left. reflexivity.
  - right. apply (section_lines_cases "business_rules" (br_view (business_rules r)) l); [| exact H5 | exact H6 | exact Hl]. do 4 right. left. reflexivity.
  - destruct Hl as [<-|[]]. right. left. left. reflexivity.
Qed.

(** The status line is the only line of the report that can hold the text
    ["Overall Status: "] followed by anything. *)
Lemma report_overall_status (r : all_results) (t : string) :
  Forall validator_message (report_messages r) ->
  char_in nl t = false -> char_in letter_O t = true ->
  forallb (fun l => negb (contains t l)) constant_lines = true ->
  contains t (format_validation_report r) = true -> contains t (status_line r) = true.
Proof.
  intros Hm Hnl HO Hconst Hc.
  assert (Hm' : Forall (fun m => char_in letter_O m = false) (report_messages r)).
  { eapply Forall_impl; [|exact Hm]. apply validator_message_no_O. }
  destruct (contains_join t (report_lines r) Hnl Hc) as [Ht | (l & Hl & Hcl)].
  - subst t. discriminate HO.
  - destruct (report_lines_cases r l Hm' Hl) as [<- | [Hk | Hno]].
    + exact Hcl.
    + rewrite forallb_forall in Hconst. specialize (Hconst l Hk).
      rewrite Hcl in Hconst. discriminate.
    + rewrite (contains_char_absent letter_O t l HO Hno) in Hcl. discriminate.
Qed.

Lemma status_line_in_report (r : all_results) : In (status_line r) (report_lines r).
Proof. rewrite report_lines_sections. right; right; right. left. reflexivity. Qed.

(** C10: for a comprehensive-run result (every error and warning string is
    one the validator emits), the report contains ["Overall Status: PASS"]
    exactly when [overall_valid] is true and ["Overall Status: FAIL"]
    exactly when it is false; its lines are the header followed by the
    sections of referential integrity, time constraints, interval
    calculations, data quality and business rules in this order, each
    giving [PASS] or [FAIL] from the check's [is_valid] and listing every
    error and warning string verbatim. *)
Theorem format_validation_report_spec (r : all_results)
  (Hmsg : Forall validator_message (report_messages r)) :
  (contains overall_pass (format_validation_report r) = true <-> overall_valid r = true)
  /\ (contains overall_fail (format_validation_report r) = true <-> overall_valid r = false)
  /\ format_validation_report r = join newline (report_lines r)
  /\ exists header s1 s2 s3 s4 s5,
       report_lines r = header ++ s1 ++ s2 ++ s3 ++ s4 ++ s5 ++ [rule60]
       /\ In (status_line r) header
       /\ section_ok "REFERENTIAL INTEGRITY" (ri_is_valid (referential_integrity r))
            (ri_errors (referential_integrity r)) [] s1
       /\ section_ok "TIME CONSTRAINTS" (tc_is_valid (time_constraints r))
            (tc_errors (time_constraints r)) [] s2
       /\ section_ok "INTERVAL CALCULATIONS" (ic_is_valid (interval_calculations r))
            (ic_errors (interval_calculations r)) [] s3
       /\ section_ok "DATA QUALITY" (dq_is_valid (data_quality r))
            (dq_errors (data_quality r)) [] s4
       /\ section_ok "BUSINESS RULES" (br_is_valid (business_rules r))
            (br_errors (business_rules r)) (br_warnings (business_rules r)) s5.
Proof.
  assert (Hin : contains (status_line r) (format_validation_report r) = true)
    by (apply join_contains_line, status_line_in_report).
  split; [|split; [|split]].
  - split.
    + intros Hc. apply report_overall_status in Hc; try assumption;
        try (vm_compute; reflexivity).
      unfold status_line in Hc. destruct (overall_valid r); [reflexivity|].
      vm_compute in Hc. discriminate.
    + intros Hv. unfold status_line in Hin. rewrite Hv in Hin. exact Hin.
  - split.
    + intros Hc. apply report_overall_status in Hc; try assumption;
        try (vm_compute; reflexivity).
      unfold status_line in Hc. destruct (overall_valid r); [|reflexivity].
      vm_compute in Hc. discriminate.
    + intros Hv. unfold status_line in Hin. rewrite Hv in Hin. exact Hin.
  - reflexivity.
  - eexists _, _, _, _, _, _. split; [apply report_lines_sections|].
    split; [right; right; right; left; reflexivity|].
    repeat split; apply section_lines_ok; reflexivity.
Qed.

(** ** The messages of the checks *)

Ltac validator_messages :=
  repeat first
    [ apply Forall_nil
    | apply Forall_cons;
        [ eexists _, _; split; [| reflexivity];
          unfold validator_suffixes; simpl In;
          repeat (solve [left; reflexivity] || right)
        | ] ].

Lemma referential_messages (d : db) :
  Forall validator_message (ri_errors (validate_referential_integrity d)).
Proof.
  unfold validate_referential_integrity.
  destruct (orphaned_query d), (missing_query d); simpl; validator_messages.
Qed.

Lemma time_messages (d : db) :
  Forall validator_message (tc_errors (validate_time_constraints d)).
Proof.
  unfold validate_time_constraints.
  destruct (invalid_times_query d), (overlap_query d), (negative_query d); simpl;
    validator_messages.
Qed.

Lemma calc_messages (cf : Z -> Z -> Z) (d : db) :
  Forall validator_message (ic_errors (validate_interval_calculations cf d)).
Proof.
  unfold validate_interval_calculations.
  destruct (incorrect_query cf d); simpl; validator_messages.
Qed.

Lemma quality_messages (d : db) :
  Forall validator_message (dq_errors (validate_data_quality d)).
Proof.
  unfold validate_data_quality.
  destruct (duplicates_query d), (empty_names_query d), (long_names_query d),
           (zero_duration_query d); simpl; validator_messages.
Qed.

Lemma business_messages (long : list long_row) (d : db) :
  Forall validator_message (br_errors (business_rules_from long d))
  /\ Forall validator_message (br_warnings (business_rules_from long d)).
Proof.
  unfold business_rules_from.
  destruct long, (suspicious_query d), (non_standard_query d); simpl;
    split; validator_messages.
Qed.

Lemma calculate_summary_checks (r : all_results) :
  referential_integrity (calculate_summary r) = referential_integrity r
  /\ time_constraints (calculate_summary r) = time_constraints r
  /\ interval_calculations (calculate_summary r) = interval_calculations r
  /\ data_quality (calculate_summary r) = data_quality r
  /\ business_rules (calculate_summary r) = business_rules r.
Proof.
  unfold calculate_summary.
  destruct (fold_left summary_step (items r) (overall_valid r, summary_of r)).
  repeat split.
Qed.

(** The results the comprehensive run assembles from the five checks carry
    only validator messages. *)
Lemma assembled_messages (cf : Z -> Z -> Z) (d : db) (br : business_result) :
  Forall validator_message (br_errors br) -> Forall validator_message (br_warnings br) ->
  Forall validator_message
    (report_messages (calculate_summary
       (mk_all_results true (mk_summary 0 0 0) (validate_referential_integrity d)
          (validate_time_constraints d) (validate_interval_calculations cf d)
          (validate_data_quality d) br))).
Proof.
  intros He Hw. unfold report_messages.
  destruct (calculate_summary_checks
              (mk_all_results true (mk_summary 0 0 0) (validate_referential_integrity d)
                 (validate_time_constraints d) (validate_interval_calculations cf d)
                 (validate_data_quality d) br)) as (E1 & E2 & E3 & E4 & E5).
  rewrite E1, E2, E3, E4, E5. simpl.
  rewrite !Forall_app.
  repeat split; auto using referential_messages, time_messages, calc_messages, quality_messages.
Qed.

(** C10 on a result with failing checks: the report says FAIL. *)
Lemma format_validation_report_spec_witness :
  Forall validator_message (report_messages demo_results)
  /\ contains overall_fail (format_validation_report demo_results) = true
  /\ contains overall_pass (format_validation_report demo_results) = false.
Proof.
  assert (Hm : Forall validator_message (report_messages demo_results)).
  { apply assembled_messages; apply business_messages. }
  split; [exact Hm|].
  pose proof (format_validation_report_spec demo_results Hm) as (Hp & Hf & _).
  assert (Hov : overall_valid demo_results = false) by (vm_compute; reflexivity).
  split.
  - apply Hf. exact Hov.
  - apply not_true_iff_false. rewrite Hp, Hov. discriminate.
Defined.

(** ** Business rules and the comprehensive run *)

Lemma validate_business_rules_raises (d : db) :
  validate_business_rules d = inr long_query_error.
Proof. reflexivity. Qed.

Lemma duration_at_most_24h (p : program) :
  valid_time (start_time p) -> valid_time (end_time p) -> (duration_seconds p <= time_24h)%Z.
Proof.
  unfold valid_time, duration_seconds, time_24h. intros Hs He.
  destruct (end_time p <? start_time p)%Z eqn:E; [apply Z.ltb_lt in E | apply Z.ltb_ge in E]; lia.
Qed.

Lemma business_rules_from_fields (long : list long_row) (d : db) :
  let r := business_rules_from long d in
  br_is_valid r = is_nil long
  /\ br_errors r = (if is_nil long then [] else [found (length long) " programs longer than 24 hours"])
  /\ (suspicious_query d <> [] ->
        In (found (length (suspicious_query d)) " programs with suspicious names") (br_warnings r)
        /\ (forall n, In n (suspicious_query d) -> In (SuspiciousName n) (suspicious_patterns r))).
Proof.
  intros r. subst r. split; [|split].
  - unfold business_rules_from.
    destruct long, (suspicious_query d), (non_standard_query d); reflexivity.
  - unfold business_rules_from.
    destruct long, (suspicious_query d), (non_standard_query d); reflexivity.
  - intros Hne. unfold business_rules_from.
    destruct (suspicious_query d) as [|n0 ns]; [congruence|].
    set (msg := found (length (n0 :: ns)) " programs with suspicious names").
    set (l1 := match long with
               | [] => mk_business_result true [] [] []
               | _ :: _ => mk_business_result false
                             ([] ++ [found (length long) " programs longer than 24 hours"]) []
                             ([] ++ map LongProgram long)
               end).
    assert (Hw : In msg (br_warnings l1 ++ [msg])) by (apply in_app_iff; right; left; reflexivity).
    assert (Hs : forall n, In n (n0 :: ns) ->
                 In (SuspiciousName n) (suspicious_patterns l1 ++ map SuspiciousName (n0 :: ns)))
      by (intros n Hn; apply in_app_iff; right; apply in_map, Hn).
    destruct (non_standard_query d); cbn [br_warnings suspicious_patterns br_is_valid br_errors];
      split; [exact Hw|exact Hs| |exact Hs]; apply in_app_iff; left; exact Hw.
Qed.

(** C9 (code bug): the long-program query of [validate_business_rules] is
    rejected by PostgreSQL, so the method raises on every database instead
    of returning.  Read as the row filter it was meant to be, the query
    finds nothing on valid times: the duration is at most 1440 minutes, and
    the check would pass with no errors. *)
Theorem business_rules_long_query_raises (d : db)
  (Htimes : forall p, In p (programs d) -> valid_time (start_time p) /\ valid_time (end_time p)) :
  validate_business_rules d = inr long_query_error
  /\ (forall p, In p (programs d) -> (duration_seconds p <= time_24h)%Z)
  /\ long_programs_rows d = []
  /\ br_is_valid (business_rules_from (long_programs_rows d) d) = true
  /\ br_errors (business_rules_from (long_programs_rows d) d) = [].
Proof.
  assert (Hdur : forall p, In p (programs d) -> (duration_seconds p <= time_24h)%Z).
  { intros p Hp. destruct (Htimes p Hp). apply duration_at_most_24h; assumption. }
  assert (Hrows : long_programs_rows d = []).
  { unfold long_programs_rows.
    assert (Hf : filter (fun p => (time_24h <? duration_seconds p)%Z) (programs d) = []).
    { apply nil_iff_no_member_gen. intros p Hp. apply filter_In in Hp as [Hp Hc].
      apply Z.ltb_lt in Hc. specialize (Hdur p Hp). lia. }
    rewrite Hf. reflexivity. }
  split; [reflexivity|]. split; [exact Hdur|]. split; [exact Hrows|].
  destruct (business_rules_from_fields (long_programs_rows d) d) as (Hv & He & _).
  rewrite Hv, He, Hrows. split; reflexivity.
Qed.

(** C9 on three valid schedules, one of them overnight. *)
Lemma business_rules_long_query_raises_witness :
  (forall p, In p (programs schedule_night) -> valid_time (start_time p) /\ valid_time (end_time p))
  /\ validate_business_rules schedule_night = inr long_query_error
  /\ br_is_valid (business_rules_from (long_programs_rows schedule_night) schedule_night) = true.
Proof.
  assert (Ht : forall p, In p (programs schedule_night) ->
                         valid_time (start_time p) /\ valid_time (end_time p)).
  { intros p [<-|[<-|[]]]; unfold valid_time, time_24h; simpl; lia. }
  split; [exact Ht|].
  destruct (business_rules_long_query_raises schedule_night Ht) as (H1 & _ & _ & H4 & _).
  split; [exact H1|exact H4].
Defined.

Lemma non_digit_c : non_digit letter_c.
Proof. intros d Hd. do 10 (destruct d as [|d]; [reflexivity|]). lia. Qed.

Lemma suspicious_message_not_long_message (m k : nat) :
  found m " programs with suspicious names" <> found k " programs longer than 24 hours".
Proof.
  intros E. assert (Hc : char_in letter_c (found m " programs with suspicious names")
                         = char_in letter_c (found k " programs longer than 24 hours"))
    by (rewrite E; reflexivity).
  unfold found in Hc. rewrite !char_in_app, !str_nat_no_char in Hc by apply non_digit_c.
  vm_compute in Hc. discriminate.
Qed.

(** C8 (code bug): [validate_business_rules] raises at its first query,
    before the suspicious-name query runs, so no name is ever listed.  The
    code after that query, run on any rows it could return, lists every
    name matching the denylist in [suspicious_patterns], adds a warning and
    no error, and leaves [is_valid] to the long-program rows alone. *)
Theorem suspicious_names_unreached (d : db) (p : program)
  (Hp : In p (programs d)) (Hsusp : suspicious_name (program_name p) = true) :
  validate_business_rules d = inr long_query_error
  /\ forall long,
       let r := business_rules_from long d in
       In (SuspiciousName (program_name p)) (suspicious_patterns r)
       /\ In (found (length (suspicious_query d)) " programs with suspicious names") (br_warnings r)
       /\ ~ In (found (length (suspicious_query d)) " programs with suspicious names") (br_errors r)
       /\ br_is_valid r = is_nil long.
Proof.
  assert (Hin : In (program_name p) (suspicious_query d)).
  { unfold suspicious_query. apply in_map, filter_In. auto. }
  assert (Hne : suspicious_query d <> []) by (intros E; rewrite E in Hin; inversion Hin).
  split; [reflexivity|]. intros long r.
  destruct (business_rules_from_fields long d) as (Hv & He & Hw).
  destruct (Hw Hne) as [Hw1 Hw2].
  split; [apply Hw2, Hin|]. split; [exact Hw1|]. split; [|exact Hv].
  subst r. rewrite He. destruct (is_nil long); [intros []|].
  intros [E|[]]. symmetry in E. apply suspicious_message_not_long_message in E. exact E.
Qed.

(** C8 at the name ['; DROP TABLE programs; --]. *)
Lemma suspicious_names_unreached_witness :
  In injection_show (programs schedule_injection)
  /\ suspicious_name (program_name injection_show) = true
  /\ validate_business_rules schedule_injection = inr long_query_error.
Proof.
  assert (Hp : In injection_show (programs schedule_injection)) by (left; reflexivity).
  assert (Hs : suspicious_name (program_name injection_show) = true) by (vm_compute; reflexivity).
  split; [exact Hp|]. split; [exact Hs|].
  exact (proj1 (suspicious_names_unreached schedule_injection injection_show Hp Hs)).
Defined.

(** C4 (code bug): [run_comprehensive_validation] evaluates
    [validate_business_rules] while it builds its dict, so it raises on
    every database and no summary is produced.  The summary loop itself, on
    any five check results, counts five checks, adds the [errors] lengths
    of the failing checks and the [warnings] lengths of all checks, and
    clears [overall_valid] exactly when a check fails. *)
Theorem comprehensive_validation_raises (cf : Z -> Z -> Z) (d : db) :
  run_comprehensive_validation cf d = inr long_query_error
  /\ forall ri tc ic dq br,
       let views := [ri_view ri; tc_view tc; ic_view ic; dq_view dq; br_view br] in
       let r := calculate_summary (mk_all_results true (mk_summary 0 0 0) ri tc ic dq br) in
       checks_performed (summary_of r) = length views
       /\ total_errors (summary_of r)
          = list_sum (map (fun v => if get_is_valid v then 0 else length (get_list (dv_errors v))) views)
       /\ total_warnings (summary_of r) = list_sum (map (fun v => length (get_list (dv_warnings v))) views)
       /\ (overall_valid r = false <-> exists v, In v views /\ get_is_valid v = false).
Proof.
  split; [reflexivity|]. intros ri tc ic dq br views r.
  assert (Hex : (exists v, In v views /\ get_is_valid v = false)
                <-> existsb (fun v => negb (get_is_valid v)) views = true).
  { rewrite existsb_exists. split; intros (v & Hv & Hf); exists v; split; auto.
    - rewrite Hf. reflexivity.
    - destruct (get_is_valid v); [discriminate|reflexivity]. }
  rewrite Hex. subst r views.
  unfold calculate_summary, items, ri_view, tc_view, ic_view, dq_view, br_view, get_is_valid.
  simpl.
  destruct (ri_is_valid ri), (tc_is_valid tc), (ic_is_valid ic), (dq_is_valid dq), (br_is_valid br);
    simpl; repeat split; try lia; try discriminate; try reflexivity.
Qed.

(* ================================================================== *)
(** * Further properties of the checks and the report *)

(** ** Lemmas *)

Lemma existsb_name_iff {B} (name_of : B -> string) (k : string) (ps : list B) :
  existsb (fun p => String.eqb k (name_of p)) ps = true <-> In k (map name_of ps).
Proof.
  rewrite existsb_exists, in_map_iff. split.
  - intros (p & Hp & E). apply String.eqb_eq in E. exists p. split; [symmetry; exact E|exact Hp].
  - intros (p & E & Hp). exists p. split; [exact Hp|]. apply String.eqb_eq. symmetry. exact E.
Qed.

(** The rows a [LEFT JOIN ... IS NULL] keeps, counted by name. *)
Lemma count_unmatched {A B} (key : A -> string) (name_of : B -> string)
    (ps : list B) (l : list A) (n : string) :
  count_occ string_dec
    (map key (filter (fun x => negb (existsb (fun p => String.eqb (key x) (name_of p)) ps)) l)) n
  = if in_dec string_dec n (map name_of ps) then 0 else count_occ string_dec (map key l) n.
Proof.
  induction l as [|x l IH]; simpl.
  - destruct (in_dec string_dec n (map name_of ps)); reflexivity.
  - destruct (existsb (fun p => String.eqb (key x) (name_of p)) ps) eqn:E; simpl.
    + rewrite IH. apply existsb_name_iff in E.
      destruct (in_dec string_dec n (map name_of ps)) as [Hin|Hout]; [reflexivity|].
      destruct (string_dec (key x) n) as [<-|_]; [contradiction|reflexivity].
    + rewrite IH. destruct (string_dec (key x) n) as [<-|_].
      * destruct (in_dec string_dec (key x) (map name_of ps)) as [Hin|_]; [|reflexivity].
        apply existsb_name_iff in Hin. rewrite Hin in E. discriminate.
      * reflexivity.
Qed.

Lemma orphaned_no_programs (ivs : list program_interval) :
  orphaned_query (mk_db [] ivs) = map pi_program_name ivs.
Proof.
  unfold orphaned_query. induction ivs as [|i ivs IH]; [reflexivity|].
  simpl. f_equal. exact IH.
Qed.

Lemma missing_no_intervals (ps : list program) :
  missing_query (mk_db ps []) = map program_name ps.
Proof.
  unfold missing_query. induction ps as [|p ps IH]; [reflexivity|].
  simpl. f_equal. exact IH.
Qed.

Lemma data_quality_lists (d : db) :
  duplicate_names (validate_data_quality d) = duplicates_query d
  /\ empty_names (validate_data_quality d) = empty_names_query d
  /\ long_names (validate_data_quality d) = long_names_query d.
Proof.
  unfold validate_data_quality.
  destruct (duplicates_query d), (empty_names_query d), (long_names_query d),
           (zero_duration_query d); simpl; auto.
Qed.

Lemma nodup_dup_names (d : db) (l : list string) :
  NoDup l ->
  NoDup (map dr_name (filter (fun r => Nat.ltb 1 (dr_count r))
                        (map (fun m => mk_dup_row m (name_count d m)) l))).
Proof.
  induction 1 as [|x l Hx Hl IH]; [constructor|]. cbn [map filter dr_count].
  destruct (Nat.ltb 1 (name_count d x)); cbn [map dr_name]; [|exact IH].
  constructor; [|exact IH].
  intros Hin. apply Hx. apply in_map_iff in Hin as (r & Er & Hr).
  apply filter_In in Hr as [Hr _]. apply in_map_iff in Hr as (m & <- & Hm).
  cbn [dr_name] in Er. subst. exact Hm.
Qed.

Lemma trim_is_empty_iff (s : string) :
  trim_is_empty s = true <-> (forall c, char_in c s = true -> c = space).
Proof.
  induction s as [|c s IH]; cbn [trim_is_empty char_in].
  - split; [intros _ c H; discriminate H | reflexivity].
  - rewrite andb_true_iff, IH. split.
    + intros [Hc Hs] c' H. apply orb_true_iff in H as [H|H].
      * apply Ascii.eqb_eq in H. apply Ascii.eqb_eq in Hc. congruence.
      * apply Hs, H.
    + intros H. split.
      * apply Ascii.eqb_eq. apply H. rewrite Ascii.eqb_refl. reflexivity.
      * intros c' Hc'. apply H. rewrite Hc', orb_true_r. reflexivity.
Qed.

Lemma standard_minute_iff (t : Z) : standard_minute t = true <-> ((t / 60) mod 15 = 0)%Z.
Proof.
  unfold standard_minute, minute_of. cbn [existsb].
  rewrite !orb_true_iff, !Z.eqb_eq.
  assert (H60 := Z.mod_pos_bound (t / 60) 60 ltac:(lia)).
  assert (E : ((t / 60) mod 15 = ((t / 60) mod 60) mod 15)%Z).
  { set (m := (t / 60)%Z). pose proof (Z.div_mod m 60 ltac:(lia)) as Hm.
    set (q := (m / 60)%Z) in Hm. set (r := (m mod 60)%Z) in *.
    rewrite Hm. replace (60 * q + r)%Z with (r + (4 * q) * 15)%Z by lia.
    apply Z.mod_add. lia. }
  rewrite E. set (r := ((t / 60) mod 60)%Z) in *.
  split.
  - intros [H|[H|[H|[H|H]]]]; try discriminate H; rewrite H; reflexivity.
  - intros H. pose proof (Z.div_mod r 15 ltac:(lia)) as Hr. rewrite H in Hr.
    assert (Hq := Z.div_pos r 15 ltac:(lia) ltac:(lia)).
    assert (Hq' : (r / 15 < 4)%Z) by (apply Z.div_lt_upper_bound; lia).
    lia.
Qed.

Lemma non_standard_cond_iff (p : program) :
  (negb (standard_minute (start_time p)) || negb (standard_minute (end_time p))) = true
  <-> ((start_time p / 60) mod 15 <> 0 \/ (end_time p / 60) mod 15 <> 0)%Z.
Proof.
  rewrite orb_true_iff, !negb_true_iff, <- !not_true_iff_false, !standard_minute_iff.
  reflexivity.
Qed.





Lemma map_string_app (f : ascii -> ascii) (a b : string) :
  map_string f (a ++ b) = (map_string f a ++ map_string f b)%string.
Proof. induction a as [|c a IH]; simpl; congruence. Qed.

Lemma section_lines_length (c : string) (v : dict_view) :
  length (section_lines c v) = section_length v.
Proof.
  unfold section_lines, section_length, block_length.
  rewrite !length_app.
  destruct (get_list (dv_errors v)), (get_list (dv_warnings v)); cbn [length app map];
    rewrite ?length_map; lia.
Qed.

Lemma digit_value (d : nat) : (d < 10)%nat -> nat_of_ascii (digit_char d) - 48 = d.
Proof. intros Hd. unfold digit_char. rewrite nat_ascii_embedding by lia. lia. Qed.

Lemma digit_char_is_digit (d : nat) : (d < 10)%nat -> is_digit (digit_char d) = true.
Proof.
  intros Hd. unfold is_digit, digit_char. rewrite nat_ascii_embedding by lia.
  apply andb_true_iff. split; apply Nat.leb_le; lia.
Qed.

Lemma digits_aux_value (fuel n : nat) (acc : string) :
  (n < fuel)%nat -> decimal_value_aux (digits_aux fuel n acc) 0 = decimal_value_aux acc n.
Proof.
  revert n acc. induction fuel as [|fuel IH]; intros n acc Hn; [lia|].
  cbn [digits_aux].
  assert (Hd : nat_of_ascii (digit_char (n mod 10)) - 48 = n mod 10)
    by (apply digit_value, Nat.mod_upper_bound; lia).
  destruct (Nat.ltb n 10) eqn:E.
  - apply Nat.ltb_lt in E. cbn [decimal_value_aux]. rewrite Hd.
    rewrite Nat.mod_small by lia. reflexivity.
  - apply Nat.ltb_ge in E. rewrite IH.
    + cbn [decimal_value_aux]. rewrite Hd. f_equal.
      pose proof (Nat.div_mod_eq n 10). lia.
    + apply Nat.Div0.div_lt_upper_bound; lia.
Qed.

Lemma digits_aux_digits (fuel n : nat) (acc : string) :
  (forall c, char_in c acc = true -> is_digit c = true) ->
  forall c, char_in c (digits_aux fuel n acc) = true -> is_digit c = true.
Proof.
  revert n acc. induction fuel as [|fuel IH]; intros n acc Hacc; [exact Hacc|].
  assert (Hacc' : forall c, char_in c (String (digit_char (n mod 10)) acc) = true -> is_digit c = true).
  { intros c Hc. cbn [char_in] in Hc. apply orb_true_iff in Hc as [Hc|Hc].
    - apply Ascii.eqb_eq in Hc. subst c. apply digit_char_is_digit, Nat.mod_upper_bound. lia.
    - apply Hacc, Hc. }
  cbn [digits_aux]. destruct (Nat.ltb n 10); [exact Hacc'|]. apply IH, Hacc'.
Qed.

Lemma digits_aux_nonempty (fuel n : nat) (c : ascii) (acc : string) :
  digits_aux fuel n (String c acc) <> EmptyString.
Proof.
  revert n c acc. induction fuel as [|fuel IH]; intros n c acc; cbn [digits_aux]; [discriminate|].
  destruct (Nat.ltb n 10); [discriminate|apply IH].
Qed.

Lemma str_nat_reads_back (n : nat) : reads_back (str_nat n) n.
Proof.
  unfold reads_back, str_nat, decimal_value. split; [|split].
  - cbn [digits_aux]. destruct (Nat.ltb n 10); [discriminate|apply digits_aux_nonempty].
  - apply digits_aux_digits. intros c H. discriminate H.
  - rewrite digits_aux_value by lia. reflexivity.
Qed.

(** ** Validity and errors *)

(** The referential-integrity, time-constraint and interval-calculation
    checks set [is_valid] to false exactly when they append an error: each
    is valid exactly when its [errors] list is empty, and the lists hold at
    most 2, 3 and 1 messages. *)
Theorem checks_valid_iff_no_errors (cf : Z -> Z -> Z) (d : db) :
  (ri_is_valid (validate_referential_integrity d) = true
     <-> ri_errors (validate_referential_integrity d) = [])
  /\ (tc_is_valid (validate_time_constraints d) = true
     <-> tc_errors (validate_time_constraints d) = [])
  /\ (ic_is_valid (validate_interval_calculations cf d) = true
     <-> ic_errors (validate_interval_calculations cf d) = [])
  /\ (length (ri_errors (validate_referential_integrity d)) <= 2)%nat
  /\ (length (tc_errors (validate_time_constraints d)) <= 3)%nat
  /\ (length (ic_errors (validate_interval_calculations cf d)) <= 1)%nat.
Proof.
  split; [|split; [|split; [|split; [|split]]]].
  - unfold validate_referential_integrity.
    destruct (orphaned_query d), (missing_query d); cbn -[found];
      split; intros H; (reflexivity || discriminate H).
  - unfold validate_time_constraints.
    destruct (invalid_times_query d), (overlap_query d), (negative_query d); cbn -[found];
      split; intros H; (reflexivity || discriminate H).
  - unfold validate_interval_calculations.
    destruct (incorrect_query cf d); cbn -[found]; split; intros H; (reflexivity || discriminate H).
  - unfold validate_referential_integrity.
    destruct (orphaned_query d), (missing_query d); cbn -[found]; lia.
  - unfold validate_time_constraints.
    destruct (invalid_times_query d), (overlap_query d), (negative_query d); cbn -[found]; lia.
  - unfold validate_interval_calculations.
    destruct (incorrect_query cf d); cbn -[found]; lia.
Qed.

(** The data-quality check is the exception: an empty [errors] list means
    [is_valid], but a valid result can carry one error, the zero-duration
    message, and it carries it exactly when the duplicate, empty-name and
    long-name queries find nothing while a zero-duration program exists. *)
Theorem data_quality_valid_with_errors (d : db) :
  let r := validate_data_quality d in
  (dq_errors r = [] -> dq_is_valid r = true)
  /\ (dq_is_valid r = true -> dq_errors r = [] \/ dq_errors r = [zero_duration_message d])
  /\ (dq_is_valid r = true /\ dq_errors r <> []
      <-> duplicates_query d = [] /\ empty_names_query d = [] /\ long_names_query d = []
          /\ zero_duration_query d <> []).
Proof.
  intros r. subst r. unfold validate_data_quality, zero_duration_message.
  destruct (duplicates_query d), (empty_names_query d), (long_names_query d),
           (zero_duration_query d); cbn -[found];
    intuition (first [discriminate | reflexivity | (right; reflexivity) | congruence]).
Qed.

(** ** Referential integrity *)

(** The two lists of the referential check keep one entry per unmatched
    row: a name occurs in [orphaned_intervals] as many times as it occurs
    in [program_intervals] if no program has it, and not at all otherwise;
    the same holds for [missing_intervals] and [programs].  No name is both
    orphaned and missing. *)
Theorem referential_lists_keep_duplicates (d : db) (n : string) :
  let r := validate_referential_integrity d in
  count_occ string_dec (orphaned_intervals r) n
    = (if in_dec string_dec n (program_names d) then 0
       else count_occ string_dec (interval_names d) n)
  /\ count_occ string_dec (missing_intervals r) n
    = (if in_dec string_dec n (interval_names d) then 0
       else count_occ string_dec (program_names d) n)
  /\ ~ (In n (orphaned_intervals r) /\ In n (missing_intervals r)).
Proof.
  intros r. destruct (referential_fields d) as (Ho & Hm & _). subst r. rewrite Ho, Hm.
  split; [|split].
  - unfold orphaned_query, program_names, interval_names. apply count_unmatched.
  - unfold missing_query, program_names, interval_names. apply count_unmatched.
  - intros [H1 H2]. apply in_orphaned_query in H1. apply in_missing_query in H2. tauto.
Qed.

(** With an empty [programs] table every interval row is orphaned and none
    is missing; with an empty [program_intervals] table every program is
    missing and none is orphaned; the check passes only if the other table
    is empty too. *)
Theorem referential_empty_tables (ps : list program) (ivs : list program_interval) :
  orphaned_intervals (validate_referential_integrity (mk_db [] ivs)) = map pi_program_name ivs
  /\ missing_intervals (validate_referential_integrity (mk_db [] ivs)) = []
  /\ ri_is_valid (validate_referential_integrity (mk_db [] ivs)) = is_nil ivs
  /\ missing_intervals (validate_referential_integrity (mk_db ps [])) = map program_name ps
  /\ orphaned_intervals (validate_referential_integrity (mk_db ps [])) = []
  /\ ri_is_valid (validate_referential_integrity (mk_db ps [])) = is_nil ps.
Proof.
  destruct (referential_fields (mk_db [] ivs)) as (Ho1 & Hm1 & Hv1).
  destruct (referential_fields (mk_db ps [])) as (Ho2 & Hm2 & Hv2).
  rewrite Ho1, Hm1, Hv1, Ho2, Hm2, Hv2, orphaned_no_programs, missing_no_intervals.
  split; [reflexivity|]. split; [reflexivity|].
  split; [destruct ivs; reflexivity|].
  split; [reflexivity|]. split; [reflexivity|].
  destruct ps; reflexivity.
Qed.

(** ** Time constraints and interval calculations *)

(** A program listed in [negative_durations] is never part of a pair in
    [overlapping_programs]: the overlap query leaves out every pair with a
    program whose start is after its end. *)
Theorem negative_duration_never_overlaps (d : db) (p q : program)
  (Hneg : In (time_row_of p) (negative_durations (validate_time_constraints d))) :
  ~ In (overlap_row_of p q) (overlapping_programs (validate_time_constraints d))
  /\ ~ In (overlap_row_of q p) (overlapping_programs (validate_time_constraints d)).
Proof.
  destruct (time_constraints_fields d) as (Ho & Hn & _).
  rewrite Hn in Hneg. apply in_negative_query in Hneg as (p' & _ & Hc & Hx).
  apply negative_cond_iff in Hc as [Hgt _].
  unfold time_row_of in Hx. injection Hx. intros E1 E2 _.
  rewrite Ho. split; intros Hin;
    apply in_overlap_query in Hin as (p1 & p2 & _ & _ & _ & Hc & Hx');
    rewrite <- (overlap_cond_row _ _ _ _ Hx') in Hc;
    rewrite overlap_cond_overnight in Hc by lia; discriminate Hc.
Qed.

Lemma negative_duration_never_overlaps_witness :
  In (time_row_of show_backwards) (negative_durations (validate_time_constraints schedule_night))
  /\ ~ In (overlap_row_of show_backwards show_a) (overlapping_programs (validate_time_constraints schedule_night)).
Proof.
  assert (H : In (time_row_of show_backwards) (negative_durations (validate_time_constraints schedule_night)))
    by (vm_compute; auto).
  split; [exact H|].
  exact (proj1 (negative_duration_never_overlaps schedule_night show_backwards show_a H)).
Defined.

(** Every program listed in [incorrect_calculations] has rows in both
    tables, so its name is neither in [orphaned_intervals] nor in
    [missing_intervals] of the referential check: the inner join never
    reports a name that the referential check reports. *)
Theorem incorrect_calculations_names_in_both_tables (cf : Z -> Z -> Z) (d : db) (x : calc_row)
  (Hx : In x (incorrect_calculations (validate_interval_calculations cf d))) :
  In (cr_name x) (program_names d) /\ In (cr_name x) (interval_names d)
  /\ ~ In (cr_name x) (orphaned_intervals (validate_referential_integrity d))
  /\ ~ In (cr_name x) (missing_intervals (validate_referential_integrity d)).
Proof.
  rewrite (proj1 (interval_calculations_fields cf d)) in Hx.
  apply in_incorrect_query in Hx as (p & i & Hp & Hi & Hn & _ & ->).
  destruct (referential_fields d) as (Ho & Hm & _). rewrite Ho, Hm.
  assert (H1 : In (program_name p) (program_names d)) by (apply in_map; exact Hp).
  assert (H2 : In (program_name p) (interval_names d)) by (rewrite Hn; apply in_map; exact Hi).
  cbn [cr_name calc_row_of]. split; [exact H1|]. split; [exact H2|].
  split; intros H; [apply in_orphaned_query in H | apply in_missing_query in H]; tauto.
Qed.

Lemma incorrect_calculations_names_in_both_tables_witness :
  In (mk_calc_row "Evening News" 64800 70200 4 6)
     (incorrect_calculations (validate_interval_calculations quarter_hours schedule_news))
  /\ ~ In "Evening News" (missing_intervals (validate_referential_integrity schedule_news)).
Proof.
  assert (H : In (mk_calc_row "Evening News" 64800 70200 4 6)
                 (incorrect_calculations (validate_interval_calculations quarter_hours schedule_news)))
    by (vm_compute; auto).
  split; [exact H|].
  exact (proj2 (proj2 (proj2 (incorrect_calculations_names_in_both_tables quarter_hours schedule_news _ H)))).
Defined.

(** ** Data quality *)

(** [duplicate_names] is the [GROUP BY program_name HAVING COUNT( * ) > 1]
    result: a name has a row exactly when at least two programs carry it,
    the row's count is the number of programs with that name, and no name
    has two rows. *)
Theorem duplicate_names_group_by (d : db) (n : string) :
  let dups := duplicate_names (validate_data_quality d) in
  ((exists k, In (mk_dup_row n k) dups) <-> (2 <= name_count d n)%nat)
  /\ (forall k, In (mk_dup_row n k) dups -> k = name_count d n)
  /\ NoDup (map dr_name dups).
Proof.
  intros dups. subst dups. rewrite (proj1 (data_quality_lists d)). unfold duplicates_query.
  assert (Hrow : forall k,
            In (mk_dup_row n k)
               (filter (fun r => Nat.ltb 1 (dr_count r))
                  (map (fun m => mk_dup_row m (name_count d m))
                       (nodup string_dec (map program_name (programs d)))))
            <-> k = name_count d n /\ In n (map program_name (programs d)) /\ (1 < k)%nat).
  { intros k. rewrite filter_In, in_map_iff. cbn [dr_count]. rewrite Nat.ltb_lt. split.
    - intros ((m & E & Hm) & Hk). apply nodup_In in Hm.
      injection E. intros; subst. auto.
    - intros (-> & Hn & Hk). split; [|exact Hk]. exists n. split; [reflexivity|].
      apply nodup_In. exact Hn. }
  split; [|split].
  - split.
    + intros (k & Hk). apply Hrow in Hk as (-> & _ & Hk). lia.
    + intros Hc. exists (name_count d n). apply Hrow. split; [reflexivity|]. split; [|lia].
      unfold name_count in Hc. apply (count_occ_In string_dec). lia.
  - intros k Hk. apply Hrow in Hk. apply Hk.
  - apply nodup_dup_names, NoDup_nodup.
Qed.

(** PostgreSQL's [TRIM] removes spaces only: a program is listed in
    [empty_names] exactly when its name consists of spaces (the empty name
    included), and such a program makes the check fail. *)
Theorem empty_names_only_spaces (d : db) (p : program) (Hp : In p (programs d)) :
  let r := validate_data_quality d in
  (In (time_row_of p) (empty_names r) <-> (forall c, char_in c (program_name p) = true -> c = space))
  /\ ((forall c, char_in c (program_name p) = true -> c = space) -> dq_is_valid r = false).
Proof.
  intros r. subst r. rewrite (proj1 (proj2 (data_quality_lists d))).
  assert (Hiff : In (time_row_of p) (empty_names_query d) <-> trim_is_empty (program_name p) = true).
  { unfold empty_names_query. rewrite in_map_iff. split.
    - intros (q & Hq & Hin). apply filter_In in Hin as [_ Hc].
      unfold time_row_of in Hq. injection Hq. intros _ _ En. rewrite <- En.
      apply orb_true_iff in Hc as [Hc|Hc]; [exact Hc|].
      apply Nat.eqb_eq in Hc. destruct (program_name q); [reflexivity|discriminate Hc].
    - intros Ht. exists p. split; [reflexivity|]. apply filter_In. split; [exact Hp|].
      rewrite Ht. reflexivity. }
  rewrite Hiff, trim_is_empty_iff. split; [reflexivity|].
  intros Hs. destruct (data_quality_fields d) as (_ & Hv & _). rewrite Hv.
  apply trim_is_empty_iff, Hiff in Hs.
  destruct (empty_names_query d); [inversion Hs|]. cbn [is_nil].
  rewrite andb_false_r. reflexivity.
Qed.

Lemma empty_names_only_spaces_witness :
  In blank_show (programs schedule_blank)
  /\ In (time_row_of blank_show) (empty_names (validate_data_quality schedule_blank)).
Proof.
  assert (Hp : In blank_show (programs schedule_blank)) by (left; reflexivity).
  split; [exact Hp|].
  apply (proj2 (proj1 (empty_names_only_spaces schedule_blank blank_show Hp))).
  intros c H. cbn [char_in program_name blank_show] in H.
  repeat (apply orb_true_iff in H as [H|H]; [apply Ascii.eqb_eq in H; exact H|]).
  discriminate H.
Defined.

(** ** Business rules *)

(** The non-standard-slot query looks at whole minutes only: a program is
    selected exactly when the minute count of its start or of its end is
    not a multiple of 15; the seconds are ignored. *)
Theorem non_standard_slot_quarter_hours (d : db) (p : program) (Hp : In p (programs d)) :
  In (time_row_of p) (non_standard_query d)
  <-> ((start_time p / 60) mod 15 <> 0 \/ (end_time p / 60) mod 15 <> 0)%Z.
Proof.
  rewrite <- non_standard_cond_iff. unfold non_standard_query. rewrite in_map_iff. split.
  - intros (q & Hq & Hin). apply filter_In in Hin as [_ Hc].
    unfold time_row_of in Hq. injection Hq. intros Ee Es _. rewrite <- Ee, <- Es. exact Hc.
  - intros Hc. exists p. split; [reflexivity|]. apply filter_In. split; [exact Hp|exact Hc].
Qed.

Lemma non_standard_slot_quarter_hours_witness :
  In odd_slot (programs schedule_odd) /\ In (time_row_of odd_slot) (non_standard_query schedule_odd).
Proof.
  assert (Hp : In odd_slot (programs schedule_odd)) by (left; reflexivity).
  split; [exact Hp|].
  apply (proj2 (non_standard_slot_quarter_hours schedule_odd odd_slot Hp)).
  left. vm_compute. intros H. discriminate H.
Defined.


(** A name that contains a suspicious name is suspicious. *)
Theorem suspicious_name_in_longer_name (s a b : string) (Hs : suspicious_name s = true) :
  suspicious_name (a ++ s ++ b) = true.
Proof.
  unfold suspicious_name in *. apply existsb_exists in Hs as (pat & Hpat & Hc).
  apply existsb_exists. exists pat. split; [exact Hpat|].
  unfold ilike_infix, lower in *. rewrite !map_string_app.
  apply contains_app_r, contains_app_l, Hc.
Qed.

Lemma suspicious_name_in_longer_name_witness :
  suspicious_name "Update" = true
  /\ suspicious_name ("Morning " ++ "Update" ++ " Show") = true.
Proof.
  assert (H : suspicious_name "Update" = true) by (vm_compute; reflexivity).
  split; [exact H|]. exact (suspicious_name_in_longer_name "Update" "Morning " " Show" H).
Defined.

(** ** The report *)

(** The report has 8 header lines, one section per check and a closing
    rule: a section has a title, a status and an empty line, plus a
    heading and one line per message for each non-empty [errors] or
    [warnings] list.  The report begins and ends with the ["=" * 60] rule. *)
Theorem report_line_count (r : all_results) :
  length (report_lines r) = 9 + list_sum (map section_length (report_views r))
  /\ hd "" (report_lines r) = rule60
  /\ last (report_lines r) "" = rule60.
Proof.
  rewrite report_lines_sections. split; [|split].
  - rewrite !length_app, !section_lines_length.
    cbn [report_views map list_sum fold_right length]. lia.
  - reflexivity.
  - rewrite !app_assoc. apply last_last.
Qed.

(** The three counts of the header are printed in decimal and read back
    exactly: the lines ["Checks Performed: "], ["Total Errors: "] and
    ["Total Warnings: "] are followed by non-empty digit strings whose value
    is [checks_performed], [total_errors] and [total_warnings]. *)
Theorem report_counts_read_back (r : all_results) :
  (exists s, In ("Checks Performed: " ++ s)%string (report_lines r)
             /\ reads_back s (checks_performed (summary_of r)))
  /\ (exists s, In ("Total Errors: " ++ s)%string (report_lines r)
                /\ reads_back s (total_errors (summary_of r)))
  /\ (exists s, In ("Total Warnings: " ++ s)%string (report_lines r)
                /\ reads_back s (total_warnings (summary_of r))).
Proof.
  rewrite report_lines_sections.
  split; [|split]; eexists; (split; [|apply str_nat_reads_back]).
  - do 4 right. left. reflexivity.
  - do 5 right. left. reflexivity.
  - do 6 right. left. reflexivity.
Qed.
